(** * qml-mooc: the kernel-methods notebook and the gate-model assignment

    A shallow embedding of the code cells of

      - qiskit_version/11_Kernel_Methods.ipynb
      - coding_assignments/solutions/05_Gate-Model_Quantum_Computing.ipynb

    Python values are modelled as follows.  An [int] is a [Z]; a [str] is a
    [string]; a [dict] from state strings to counts is a [gmap string Z]; a
    Python list is a [list] read with [x[i]] raising [IndexError] out of
    range.  A numpy float is a real number or [NaN] (rounding is abstracted,
    except in the assertion cell of exercise 3, whose comparison sits on a
    rounding boundary and is evaluated on binary64 floats).  A true division
    [a/b] of two ints raises [ZeroDivisionError] when [b] is 0 and
    [OverflowError] when the quotient rounds to no binary64 float, and is
    the exact rational quotient otherwise.  A function that can raise
    returns in the [py] monad.

    A Qiskit circuit is the list of instructions appended to it; a state
    vector gives a complex amplitude to every basis index, qubit [k] being
    bit [k] of the index (Qiskit's little-endian convention). *)

From Stdlib Require Uint63.
From Stdlib Require Import PrimFloat.
From Stdlib Require Import Reals Lra ZArith QArith Qcanon Ascii String.
From stdpp Require Import base option list strings pretty gmap fin_maps numbers.

(** ** Python exceptions *)

Module Py.

Inductive py_error : Type :=
| IndexError
| KeyError (key : string)
| ZeroDivisionError (target : string)  (* the variable being assigned *)
| OverflowError (target : string)
| AssertionError
| CircuitError.

Inductive py (A : Type) : Type :=
| Ret (a : A)
| Raise (e : py_error).
Arguments Ret {A} a.
Arguments Raise {A} e.

#[export] Instance py_ret : MRet py := @Ret.
#[export] Instance py_bind : MBind py := fun A B f m =>
  match m with
  | Ret a => f a
  | Raise e => Raise e
  end.

(** [l[i]] on a Python list. *)
Definition getitem {A : Type} (l : list A) (i : nat) : py A :=
  match l !! i with
  | Some a => Ret a
  | None => Raise IndexError
  end.

(** [s[0]] and [s[-1]] on a Python string. *)
Definition str_first (s : string) : py ascii :=
  match s with
  | EmptyString => Raise IndexError
  | String a _ => Ret a
  end.

Fixpoint str_last (s : string) : py ascii :=
  match s with
  | EmptyString => Raise IndexError
  | String a EmptyString => Ret a
  | String _ s' => str_last s'
  end.

(** A list comprehension [[x for x in l if p(x)]] whose condition can raise. *)
Fixpoint comprehension {A : Type} (p : A -> py bool) (l : list A) : py (list A) :=
  match l with
  | [] => Ret []
  | x :: l' =>
      b ← p x;
      r ← comprehension p l';
      Ret (if b : bool then x :: r else r)
  end.

(** [dict(pairs)]: later pairs override earlier ones. *)
Definition dict (pairs : list (string * Z)) : gmap string Z :=
  foldl (fun m kv => <[kv.1 := kv.2]> m) ∅ pairs.

(** [d.items()] and [sum(d.values())]. *)
Definition items (d : gmap string Z) : list (string * Z) := map_to_list d.
Definition values (d : gmap string Z) : list Z := snd <$> map_to_list d.
Definition sum (l : list Z) : Z := foldr Z.add 0%Z l.

(** [d[k]]. *)
Definition dict_getitem (d : gmap string Z) (k : string) : py Z :=
  match d !! k with
  | Some v => Ret v
  | None => Raise (KeyError k)
  end.

(** [str(n)]. *)
Definition str (n : Z) : string := pretty n.

(** The least magnitude that rounds to no binary64 float: half an ulp above
    the largest one. *)
Definition float_max_bound : Z := (2 ^ 1024 - 2 ^ 970)%Z.

(** [|a/b|] is at least that magnitude. *)
Definition overflows (a b : Z) : bool :=
  (float_max_bound * Z.abs b <=? Z.abs a)%Z.

(** True division of two ints: [ZeroDivisionError] on a zero divisor,
    [OverflowError] ("integer division result too large for a float") when
    the correctly rounded quotient is out of range. *)
Definition truediv (target : string) (a b : Z) : py Qc :=
  if decide (b = 0%Z) then Raise (ZeroDivisionError target)
  else if overflows a b then Raise (OverflowError target)
  else Ret (Qc_of_Z a / Qc_of_Z b)%Qc.

Definition assert (b : bool) : py unit :=
  if b then Ret tt else Raise AssertionError.

End Py.
Import Py.

(** ** numpy floats *)

Module Np.

Inductive np_float : Type :=
| Fin (r : R)
| NaN.

Definition lift1 (f : R -> R) (x : np_float) : np_float :=
  match x with
  | Fin r => Fin (f r)
  | NaN => NaN
  end.

Definition lift2 (f : R -> R -> R) (x y : np_float) : np_float :=
  match x, y with
  | Fin r, Fin s => Fin (f r s)
  | _, _ => NaN
  end.

Definition mul : np_float -> np_float -> np_float := lift2 Rmult.
Definition neg : np_float -> np_float := lift1 Ropp.

(** Division by a non-zero Python number. *)
Definition div_by (k : R) : np_float -> np_float := lift1 (fun r => r / k)%R.

(** [np.arccos]: [nan] outside [[-1, 1]] (numpy warns, it does not raise). *)
Definition arccos (x : np_float) : np_float :=
  match x with
  | Fin r =>
      if Rle_dec (-1) r then
        if Rle_dec r 1 then Fin (acos r) else NaN
      else NaN
  | NaN => NaN
  end.

End Np.
Import Np.

(** ** Complex amplitudes *)

Module Cplx.

Definition C : Type := (R * R)%type.

Definition RtoC (r : R) : C := (r, 0%R).
Definition Cadd (z w : C) : C := (z.1 + w.1, z.2 + w.2)%R.
Definition Cmul (z w : C) : C :=
  (z.1 * w.1 - z.2 * w.2, z.1 * w.2 + z.2 * w.1)%R.
Definition Cexp_i (t : R) : C := (cos t, sin t).
Definition Csub (z w : C) : C := (z.1 - w.1, z.2 - w.2)%R.
Definition Cnorm2 (z : C) : R := (z.1 * z.1 + z.2 * z.2)%R.
Definition Cabs (z : C) : R := sqrt (Cnorm2 z).

End Cplx.
Import Cplx.

(** ** The part of Qiskit the notebooks call

    Registers are modelled by their sizes, [q[i]] is the qubit index [i].
    Every gate method appends one instruction to the circuit it is called
    on; [barrier()] spans all qubits and [measure(q, c)] on two registers
    appends one measurement per qubit, or one per clbit when a register of
    one qubit is broadcast.  The registers a method is given
    are those the circuit was built on, as in every call of the notebooks
    (Qiskit raises [CircuitError] for a foreign register). *)

Module Qiskit.

Inductive instr : Type :=
| HGate (q : nat)
| XGate (q : nat)
| RYGate (theta : np_float) (q : nat)
| Cu3Gate (theta phi lam : np_float) (ctl tgt : nat)
| CnotGate (ctl tgt : nat)
| ToffoliGate (ctl1 ctl2 tgt : nat)
| Barrier (qs : list nat)
| Measure (q c : nat).

Record QuantumCircuit : Type := mkCircuit {
  qubits : nat;
  clbits : nat;
  data : list instr
}.

Definition new_circuit (q c : nat) : QuantumCircuit :=
  {| qubits := q; clbits := c; data := [] |}.

(** [q[i]] on a register of [q] qubits. *)
Definition qubit (q i : nat) : py nat :=
  if (i <? q)%nat then Ret i else Raise IndexError.

Definition append (i : instr) (circuit : QuantumCircuit) : QuantumCircuit :=
  {| qubits := qubits circuit; clbits := clbits circuit;
     data := data circuit ++ [i] |}.

Definition h (q : nat) := append (HGate q).
Definition x (q : nat) := append (XGate q).
Definition ry (theta : np_float) (q : nat) := append (RYGate theta q).
Definition cu3 (theta phi lam : np_float) (ctl tgt : nat) :=
  append (Cu3Gate theta phi lam ctl tgt).
Definition cx (ctl tgt : nat) := append (CnotGate ctl tgt).
Definition ccx (ctl1 ctl2 tgt : nat) := append (ToffoliGate ctl1 ctl2 tgt).
Definition barrier (circuit : QuantumCircuit) : QuantumCircuit :=
  append (Barrier (seq 0 (qubits circuit))) circuit.

(** [circuit.measure(q, c)] on whole registers of the circuit: qubit [i]
    into clbit [i] when the registers have the same size; a register of one
    qubit is broadcast, its qubit measured into every clbit; any other pair
    of sizes raises [CircuitError]. *)
Definition measure (q c : nat) (circuit : QuantumCircuit) : py QuantumCircuit :=
  if decide (q = c) then
    Ret (foldl (fun circ i => append (Measure i i) circ) circuit (seq 0 q))
  else if decide (q = 1%nat /\ c <> 0%nat) then
    Ret (foldl (fun circ i => append (Measure 0 i) circ) circuit (seq 0 c))
  else Raise CircuitError.

(** *** State-vector semantics *)

Definition state : Type := nat -> C.
Definition mat2 : Type := bool -> bool -> C.

(** The basis state [|x>]. *)
Definition ket (x : nat) : state :=
  fun y => if (y =? x)%nat then RtoC 1 else RtoC 0.

(** A one-qubit matrix on qubit [k]. *)
Definition apply1 (U : mat2) (k : nat) (psi : state) : state :=
  fun y =>
    Cadd (Cmul (U (Nat.testbit y k) false) (psi (Nat.clearbit y k)))
         (Cmul (U (Nat.testbit y k) true) (psi (Nat.setbit y k))).

(** Product and identity of one-qubit matrices. *)
Definition mmul (U V : mat2) : mat2 := fun r c =>
  Cadd (Cmul (U r false) (V false c)) (Cmul (U r true) (V true c)).

Definition Im : mat2 := fun r c =>
  RtoC (if xorb r c then 0 else 1)%R.

(** An operation applied where all control qubits are 1. *)
Definition controlled (ctls : list nat) (f : state -> state) (psi : state) : state :=
  fun y => if forallb (Nat.testbit y) ctls then f psi y else psi y.

Definition Hm : mat2 := fun r c =>
  RtoC (if r && c then - / sqrt 2 else / sqrt 2)%R.

Definition Xm : mat2 := fun r c =>
  RtoC (if xorb r c then 1 else 0)%R.

Definition RYm (theta : R) : mat2 := fun r c =>
  match r, c with
  | false, false => RtoC (cos (theta / 2))
  | false, true => RtoC (- sin (theta / 2))
  | true, false => RtoC (sin (theta / 2))
  | true, true => RtoC (cos (theta / 2))
  end.

Definition U3m (theta phi lam : R) : mat2 := fun r c =>
  match r, c with
  | false, false => RtoC (cos (theta / 2))
  | false, true => Cmul (Cexp_i lam) (RtoC (- sin (theta / 2)))
  | true, false => Cmul (Cexp_i phi) (RtoC (sin (theta / 2)))
  | true, true => Cmul (Cexp_i (phi + lam)) (RtoC (cos (theta / 2)))
  end.

(** A gate parameter that is a number. *)
Definition angle (t : np_float) : option R :=
  match t with
  | Fin r => Some r
  | NaN => None
  end.

(** The operator of an instruction; measurements are not unitary, and a
    gate with a [NaN] parameter has none. *)
Definition denote (i : instr) : option (state -> state) :=
  match i with
  | HGate q => Some (apply1 Hm q)
  | XGate q => Some (apply1 Xm q)
  | RYGate theta q =>
      t ← angle theta; Some (apply1 (RYm t) q)
  | Cu3Gate theta phi lam ctl tgt =>
      t ← angle theta; p ← angle phi; l ← angle lam;
      Some (controlled [ctl] (apply1 (U3m t p l) tgt))
  | CnotGate ctl tgt => Some (controlled [ctl] (apply1 Xm tgt))
  | ToffoliGate ctl1 ctl2 tgt => Some (controlled [ctl1; ctl2] (apply1 Xm tgt))
  | Barrier _ => Some (fun psi => psi)
  | Measure _ _ => None
  end.

Fixpoint run (l : list instr) (psi : state) : option state :=
  match l with
  | [] => Some psi
  | i :: l' => U ← denote i; run l' (U psi)
  end.

(** The statevector simulator: the amplitudes of all [2^n] basis indices
    after the circuit has run on [|0...0>]. *)
Definition statevector (circuit : QuantumCircuit) : option (list C) :=
  psi ← run (data circuit) (ket 0);
  Some (psi <$> seq 0 (2 ^ qubits circuit)).

(** *** Measurement sampling

    The QASM simulator runs a circuit whose measurements come last and
    samples the classical register once per shot; the key of an outcome is
    the register printed with clbit [n-1] first. *)

Definition is_measure (i : instr) : bool :=
  match i with
  | Measure _ _ => true
  | _ => false
  end.

(** The unitary part of a circuit and its measurements [(qubit, clbit)]. *)
Definition gates (circuit : QuantumCircuit) : list instr :=
  List.filter (fun i => negb (is_measure i)) (data circuit).

Definition measurements (circuit : QuantumCircuit) : list (nat * nat) :=
  omap (fun i => match i with Measure q c => Some (q, c) | _ => None end)
       (data circuit).

(** All measurements come after all gates. *)
Definition terminal_measurements (circuit : QuantumCircuit) : Prop :=
  data circuit =
    gates circuit ++ ((fun qc => Measure qc.1 qc.2) <$> measurements circuit).

(** The classical register after measuring basis index [y]. *)
Definition readout (ms : list (nat * nat)) (y : nat) : nat :=
  foldl (fun v qc =>
           if Nat.testbit y qc.1 then Nat.setbit v qc.2 else Nat.clearbit v qc.2)
        0 ms.

(** A register value as Qiskit prints it: clbit [n-1] first. *)
Fixpoint bitstring (n v : nat) : string :=
  match n with
  | 0 => EmptyString
  | S n' => String (if Nat.testbit v n' then "1" else "0")%char (bitstring n' v)
  end.

Definition outcome_key (circuit : QuantumCircuit) (y : nat) : string :=
  bitstring (clbits circuit) (readout (measurements circuit) y).

(** Born rule: the probability of reading [key]. *)
Definition outcome_prob (circuit : QuantumCircuit) (key : string) : option R :=
  psi ← run (gates circuit) (ket 0);
  Some (foldr Rplus 0%R
          ((fun y => if String.eqb (outcome_key circuit y) key
                     then Cnorm2 (psi y) else 0%R)
             <$> seq 0 (2 ^ qubits circuit))).

(** The outcomes of [shots] runs: each is a key of non-zero probability. *)
Definition is_run (circuit : QuantumCircuit) (shots : nat) (outcomes : list string) : Prop :=
  terminal_measurements circuit /\
  length outcomes = shots /\
  Forall (fun key => exists p, outcome_prob circuit key = Some p /\ (0 < p)%R) outcomes.

(** The counts dictionary of a list of outcomes: only outcomes that occurred
    have a key. *)
Definition tally (outcomes : list string) : gmap string Z :=
  foldr (fun key m => <[key := (default 0 (m !! key) + 1)%Z]> m) ∅ outcomes.

(** The counts a run of [shots] shots can return. *)
Definition qasm_counts (circuit : QuantumCircuit) (shots : nat) (counts : gmap string Z) : Prop :=
  exists outcomes, is_run circuit shots outcomes /\ counts = tally outcomes.

End Qiskit.
Import Qiskit.

(** ** qiskit_version/11_Kernel_Methods.ipynb *)

Module KernelMethods.

Definition q : nat := 4.   (* QuantumRegister(4) *)
Definition c : nat := 4.   (* ClassicalRegister(4) *)

Definition training_set : list (list np_float) :=
  [[Fin 0; Fin 1]; [Fin 0.79; Fin 0.615]].
Definition labels : list Z := [0; 1]%Z.
Definition test_set : list (list np_float) :=
  [[Fin (-0.549); Fin 0.836]; [Fin 0.053; Fin 0.999]].

Definition get_angle (amplitude_0 : np_float) : py np_float :=
  Ret (Np.mul (Fin 2) (Np.arccos amplitude_0)).

Definition prepare_state (q c : nat) (angles : list np_float) : py QuantumCircuit :=
  ancilla_qubit ← qubit q 0;
  index_qubit ← qubit q 1;
  data_qubit ← qubit q 2;
  class_qubit ← qubit q 3;
  let circuit := new_circuit q c in
  (* Put the ancilla and the index qubits into uniform superposition *)
  let circuit := h ancilla_qubit circuit in
  let circuit := h index_qubit circuit in
  let circuit := barrier circuit in
  (* Prepare the test vector *)
  a0 ← getitem angles 0;
  let circuit := cu3 a0 (Fin 0) (Fin 0) ancilla_qubit data_qubit circuit in
  let circuit := x ancilla_qubit circuit in
  let circuit := barrier circuit in
  (* Prepare the first training vector *)
  let circuit := ccx ancilla_qubit index_qubit data_qubit circuit in
  let circuit := x index_qubit circuit in
  let circuit := barrier circuit in
  (* Prepare the second training vector *)
  let circuit := ccx ancilla_qubit index_qubit data_qubit circuit in
  a1 ← getitem angles 1;
  let circuit := ry (Np.neg a1) data_qubit circuit in
  let circuit := ccx ancilla_qubit index_qubit data_qubit circuit in
  a1' ← getitem angles 1;
  let circuit := ry a1' data_qubit circuit in
  let circuit := barrier circuit in
  (* Flip the class label for training vector #2 *)
  let circuit := cx index_qubit class_qubit circuit in
  Ret circuit.

(** The cell that computes the angles and prepares the first state. *)
Definition test_angles : py (list np_float) :=
  t0 ← getitem test_set 0; t00 ← getitem t0 0; a0 ← get_angle t00;
  t1 ← getitem test_set 1; t10 ← getitem t1 0; a1 ← get_angle t10;
  Ret [a0; a1].

Definition training_angle : py np_float :=
  t1 ← getitem training_set 1; t10 ← getitem t1 0; a ← get_angle t10;
  Ret (Np.div_by 2 a).

(** [angles] is assigned twice, once per test instance. *)
Definition angles_for (i : nat) : py (list np_float) :=
  ta ← test_angles; t ← getitem ta i; tr ← training_angle;
  Ret [t; tr].

Definition angles_0 : py (list np_float) := angles_for 0.
Definition angles_1 : py (list np_float) := angles_for 1.

Definition state_preparation_0 : py QuantumCircuit :=
  angles ← angles_0; prepare_state q c angles.

Definition state_preparation_1 : py QuantumCircuit :=
  angles ← angles_1; prepare_state q c angles.

Definition interfere_data_and_test_instances
    (circuit : QuantumCircuit) (q c : nat) (angles : list np_float) : py QuantumCircuit :=
  q0 ← qubit q 0;
  let circuit := h q0 circuit in
  let circuit := barrier circuit in
  circuit ← measure q c circuit;
  Ret circuit.

Definition circuit_0 : py QuantumCircuit :=
  angles ← angles_0;
  state_preparation_0 ← state_preparation_0;
  interfere_data_and_test_instances state_preparation_0 q c angles.

(** *** postselect

    The function prints its three results rounded to three digits; the
    embedding returns them as computed. *)

Record postselect_result : Type := mkPostselect {
  ancilla_post_selection : Qc;
  prob_class0 : Qc;
  prob_class1 : Qc
}.

(** [post_select = lambda counts: [(state, occurences) for state, occurences
    in counts.items() if state[-1] == '0']] *)
Definition post_select (counts : gmap string Z) : py (list (string * Z)) :=
  comprehension
    (fun so => a ← str_last so.1; Ret (bool_decide (a = "0"%char)))
    (items counts).

(** [retrieve_class = lambda binary_class: [occurences for state, occurences
    in postselection.items() if state[0] == str(binary_class)]] *)
Definition retrieve_class (postselection : gmap string Z) (binary_class : Z) : py (list Z) :=
  l ← comprehension
         (fun so => a ← str_first so.1;
                    Ret (bool_decide (String a EmptyString = str binary_class)))
         (items postselection);
  Ret (snd <$> (l : list (string * Z))).

Definition postselect (result_counts : gmap string Z) : py postselect_result :=
  let total_samples := sum (values result_counts) in
  kept ← post_select result_counts;
  let postselection := dict kept in
  let postselected_samples := sum (values postselection) in
  ancilla_post_selection ←
    truediv "ancilla_post_selection" postselected_samples total_samples;
  class0 ← retrieve_class postselection 0;
  prob_class0 ← truediv "prob_class0" (sum class0) postselected_samples;
  class1 ← retrieve_class postselection 1;
  prob_class1 ← truediv "prob_class1" (sum class1) postselected_samples;
  Ret (mkPostselect ancilla_post_selection prob_class0 prob_class1).

End KernelMethods.
Import KernelMethods.

(** ** coding_assignments/solutions/05_Gate-Model_Quantum_Computing.ipynb *)

Module GateModel.

(** Exercise 1. *)
Definition circuit_ex1 : py QuantumCircuit :=
  let q := 1 in
  let c := 1 in
  let circuit := new_circuit q c in
  q0 ← qubit q 0; let circuit := x q0 circuit in
  q0 ← qubit q 0; let circuit := h q0 circuit in
  q0 ← qubit q 0; let circuit := x q0 circuit in
  Ret circuit.

(** Exercise 2. *)
Definition circuit_ex2 : py QuantumCircuit :=
  let q := 3 in
  let c := 3 in
  let circuit := new_circuit q c in
  q0 ← qubit q 0; let circuit := h q0 circuit in
  q0 ← qubit q 0; q1 ← qubit q 1; let circuit := cx q0 q1 circuit in
  q1 ← qubit q 1; q2 ← qubit q 2; let circuit := cx q1 q2 circuit in
  Ret circuit.

(** Exercise 3: the measurement is added to the circuit of exercise 2. *)
Definition circuit_ex3 : py QuantumCircuit :=
  circuit ← circuit_ex2;
  measure 3 3 circuit.

(** Modelled from the spec: [get_amplitudes] is defined in
    assignment_helper.py, which is not among the sources.  The spec lists it
    with the execution helpers that delegate state-vector simulation to the
    SDK: it returns the state vector of the circuit. *)
Definition get_amplitudes (circuit : QuantumCircuit) : option (list C) :=
  statevector circuit.

(** [np.allclose(a, b)] with numpy's default tolerances:
    [|a - b| <= atol + rtol * |b|] elementwise. *)
Definition allclose (a b : list C) : Prop :=
  Forall2 (fun u v => Cabs (Csub u v) <= 1e-8 + 1e-5 * Cabs v)%R a b.

(** The expected vectors of the two assertion cells. *)
Definition expected_ex1 : list C :=
  [RtoC (-1 / sqrt 2); RtoC (1 / sqrt 2)].
Definition expected_ex2 : list C :=
  [RtoC (1 / sqrt 2); RtoC 0; RtoC 0; RtoC 0;
   RtoC 0; RtoC 0; RtoC 0; RtoC (1 / sqrt 2)].

(** Modelled from the spec: [get_counts] is defined in assignment_helper.py,
    which is not among the sources.  The spec lists it with the execution
    helpers that delegate measurement sampling to the SDK, and the
    assertions read its result over 100 shots: it relates a circuit to the
    counts of any run of 100 shots on the QASM simulator. *)
Definition get_counts (circuit : QuantumCircuit) (counts : gmap string Z) : Prop :=
  qasm_counts circuit 100 counts.

(** An int as a binary64 float (exact below [2^53]). *)
Definition float_of_int (n : Z) : PrimFloat.float :=
  if (n <? 0)%Z then PrimFloat.opp (PrimFloat.of_uint63 (Uint63.of_Z (- n)))
  else PrimFloat.of_uint63 (Uint63.of_Z n).

(** [abs(n/100-.5) < 0.1] on floats. *)
#[warnings="-inexact-float"]
Definition near_half (n : Z) : bool :=
  PrimFloat.ltb
    (PrimFloat.abs
       (PrimFloat.sub (PrimFloat.div (float_of_int n) (float_of_int 100))
                      0.5%float))
    0.1%float.

(** The assertion cell of exercise 3. *)
Definition assert_counts (counts : gmap string Z) : py unit :=
  c0 ← dict_getitem counts "000";
  _ ← assert (near_half c0);
  c1 ← dict_getitem counts "111";
  _ ← assert (near_half c1);
  c0 ← dict_getitem counts "000";
  c1 ← dict_getitem counts "111";
  assert (c0 + c1 =? 100)%Z.

End GateModel.
Import GateModel.

(** ** The spec's notions, stated independently of the code *)

Module Spec.

(** A double-controlled RY: the rotation [RY(theta)] on the target where both
    controls are 1, nothing elsewhere. *)
Definition double_controlled_ry (theta : R) (ctl1 ctl2 tgt : nat) (psi : state) : state :=
  fun y =>
    if Nat.testbit y ctl1 && Nat.testbit y ctl2
    then apply1 (RYm theta) tgt psi y
    else psi y.

(** The fourth section of the state preparation, without its barrier: the
    instructions at positions 9 to 12. *)
Definition second_training_block (circuit : QuantumCircuit) : list instr :=
  take 4 (drop 9 (data circuit)).

(** Post-selection, in the glossary's words: outcomes whose ancilla (the
    last character of the state string) is not 0 are discarded, and the
    remaining statistics are renormalized by the kept total. *)
Definition ends_with (a : ascii) (state : string) : bool :=
  bool_decide (String.get (String.length state - 1) state = Some a).

Definition starts_with (a : ascii) (state : string) : bool :=
  bool_decide (String.get 0 state = Some a).

Definition everything (state : string) : bool := true.

(** The total count of the states selected by [P]. *)
Definition weight (P : string -> bool) (counts : gmap string Z) : Z :=
  map_fold (fun state n acc => if P state then (n + acc)%Z else acc) 0%Z counts.

Definition kept (result_counts : gmap string Z) : gmap string Z :=
  filter (fun so => ends_with "0" so.1 = true) result_counts.

Definition class_probability (a : ascii) (result_counts : gmap string Z) : Qc :=
  (Qc_of_Z (weight (starts_with a) (kept result_counts))
   / Qc_of_Z (weight everything (kept result_counts)))%Qc.

(** Counts as a measurement returns them: every state string has at least
    one character and was seen at least once. *)
Definition measured_counts (result_counts : gmap string Z) : Prop :=
  map_Forall (fun state n => state <> EmptyString /\ (0 < n)%Z) result_counts.

End Spec.
Import Spec.

(** ** Sparse state vectors

    A state as a finite sum of weighted basis states, and the action of the
    instructions on such sums; used to evaluate the circuits of the
    notebooks. *)

Module Sparse.

Definition term : Type := (C * nat)%type.

(** The state [sum c_j |x_j>]. *)
Fixpoint lin (ts : list term) (y : nat) : C :=
  match ts with
  | [] => RtoC 0
  | t :: ts' => Cadd (Cmul t.1 (ket t.2 y)) (lin ts' y)
  end.

Definition flip (x k : nat) : nat :=
  if Nat.testbit x k then Nat.clearbit x k else Nat.setbit x k.

(** A one-qubit matrix on qubit [k] of a weighted basis state. *)
Definition matrix_term (U : mat2) (k : nat) (t : term) : list term :=
  [(Cmul (U false (Nat.testbit t.2 k)) t.1, Nat.clearbit t.2 k);
   (Cmul (U true (Nat.testbit t.2 k)) t.1, Nat.setbit t.2 k)].

(** Pauli X on qubit [k] of a weighted basis state. *)
Definition flip_term (k : nat) (t : term) : list term := [(t.1, flip t.2 k)].

Definition on_controls (ctls : list nat) (F : term -> list term) (t : term) : list term :=
  if forallb (Nat.testbit t.2) ctls then F t else [t].

(** The action of an instruction on a sum; controlled gates need a target
    that is not a control. *)
Definition step (i : instr) : option (list term -> list term) :=
  match i with
  | HGate q => Some (flat_map (matrix_term Hm q))
  | XGate q => Some (flat_map (flip_term q))
  | RYGate theta q =>
      t ← angle theta; Some (flat_map (matrix_term (RYm t) q))
  | Cu3Gate theta phi lam ctl tgt =>
      t ← angle theta; p ← angle phi; l ← angle lam;
      if existsb (Nat.eqb tgt) [ctl] then None
      else Some (flat_map (on_controls [ctl] (matrix_term (U3m t p l) tgt)))
  | CnotGate ctl tgt =>
      if existsb (Nat.eqb tgt) [ctl] then None
      else Some (flat_map (on_controls [ctl] (flip_term tgt)))
  | ToffoliGate ctl1 ctl2 tgt =>
      if existsb (Nat.eqb tgt) [ctl1; ctl2] then None
      else Some (flat_map (on_controls [ctl1; ctl2] (flip_term tgt)))
  | Barrier _ => Some (fun ts => ts)
  | Measure _ _ => None
  end.

Fixpoint sparse_run (l : list instr) (ts : list term) : option (list term) :=
  match l with
  | [] => Some ts
  | i :: l' => F ← step i; sparse_run l' (F ts)
  end.

(** The amplitude of [|y>] in a sum. *)
Fixpoint coeff (ts : list term) (y : nat) : C :=
  match ts with
  | [] => RtoC 0
  | t :: ts' => if (t.2 =? y)%nat then Cadd t.1 (coeff ts' y) else coeff ts' y
  end.

End Sparse.
Import Sparse.

(** ** The cells around the state preparation *)

Module Classifier.

(** The cell that prints the prepared state: [val] labels the coefficients,
    [outp] is twice the real part of the state vector. *)
Definition val : list string :=
  ["Xtest x"; "Xtrn0 x"; EmptyString; EmptyString;
   "Xtest y"; "Xtrn0 y"; EmptyString; EmptyString;
   EmptyString; EmptyString; "Xtest x"; "Xtrn1 x";
   EmptyString; EmptyString; "Xtest y"; "Xtrn1 y"].

Definition outp (circuit : QuantumCircuit) : option (list R) :=
  amplitudes ← statevector circuit;
  Some ((fun z : C => 2 * z.1)%R <$> (amplitudes : list C)).

(** The last cell: the circuit for the second test instance. *)
Definition circuit_1 : py QuantumCircuit :=
  angles ← angles_1;
  state_preparation_1 ← state_preparation_1;
  interfere_data_and_test_instances state_preparation_1 q c angles.

(** The cell that plots the kernel: [1 - x**2/4]. *)
Definition kernel (x : R) : R := (1 - x ^ 2 / 4)%R.

(** The unit vectors a pair of angles stands for: the test vector of
    [angles[0]], the first training vector [(0, 1)] and the second training
    vector of [angles[1]]; component [false] is x and [true] is y. *)
Definition test_vector (theta : R) (d : bool) : R :=
  if d then sin (theta / 2) else cos (theta / 2).

Definition training_vector (a : R) (m d : bool) : R :=
  if m then (if d then sin a else cos a) else (if d then 1 else 0)%R.

(** The component a label of [val] points at, in the vectors the angles
    encode. *)
Definition labelled (theta a : R) (label : string) : R :=
  if String.eqb label "Xtest x" then test_vector theta false
  else if String.eqb label "Xtest y" then test_vector theta true
  else if String.eqb label "Xtrn0 x" then training_vector a false false
  else if String.eqb label "Xtrn0 y" then training_vector a false true
  else if String.eqb label "Xtrn1 x" then training_vector a true false
  else if String.eqb label "Xtrn1 y" then training_vector a true true
  else 0%R.



(** The encoded state the notebook describes, index bits [c d i a]: the
    class bit equals the index bit; ancilla 0 carries the test vector and
    ancilla 1 the training vector of that index. *)
Definition prepared_amplitude (theta a : R) (y : nat) : R :=
  if Bool.eqb (Nat.testbit y 3) (Nat.testbit y 1) then
    ((if Nat.testbit y 0 then training_vector a (Nat.testbit y 1) (Nat.testbit y 2)
      else test_vector theta (Nat.testbit y 2)) / 2)%R
  else 0%R.

(** The state after the Hadamard on the ancilla: sum of test and training
    vector on ancilla 0, difference on ancilla 1. *)
Definition interfered_amplitude (theta a : R) (y : nat) : R :=
  if Bool.eqb (Nat.testbit y 3) (Nat.testbit y 1) then
    ((test_vector theta (Nat.testbit y 2)
      + (if Nat.testbit y 0 then -1 else 1)
        * training_vector a (Nat.testbit y 1) (Nat.testbit y 2))
     / (2 * sqrt 2))%R
  else 0%R.

(** The squared distance between the test vector and a training vector. *)
Definition sqdist (theta a : R) (m : bool) : R :=
  ((test_vector theta false - training_vector a m false) ^ 2
   + (test_vector theta true - training_vector a m true) ^ 2)%R.

End Classifier.
Import Classifier.

(** * Properties *)

(** ** Circuit construction *)

Lemma data_append i circuit : data (append i circuit) = data circuit ++ [i].
Proof. reflexivity. Qed.

Lemma foldl_append_measure l circuit :
  foldl (fun circ i => append (Measure i i) circ) circuit l =
  mkCircuit (qubits circuit) (clbits circuit)
            (data circuit ++ ((fun i => Measure i i) <$> l)).
Proof.
  revert circuit. induction l as [|i l IH]; intros [nq nc d]; simpl.
  - by rewrite app_nil_r.
  - rewrite IH. simpl. by rewrite <- app_assoc.
Qed.

Lemma foldl_append (f : nat -> instr) l circuit :
  foldl (fun circ i => append (f i) circ) circuit l =
  mkCircuit (qubits circuit) (clbits circuit) (data circuit ++ (f <$> l)).
Proof.
  revert circuit. induction l as [|i l IH]; intros [nq nc d]; simpl.
  - by rewrite app_nil_r.
  - rewrite IH. simpl. by rewrite <- app_assoc.
Qed.

Lemma measure_registers n circuit :
  measure n n circuit =
  Ret (mkCircuit (qubits circuit) (clbits circuit)
                 (data circuit ++ ((fun i => Measure i i) <$> seq 0 n))).
Proof.
  unfold measure. rewrite decide_True by done. by rewrite foldl_append_measure.
Qed.

Lemma measure_broadcast m circuit :
  m <> 1%nat -> m <> 0%nat ->
  measure 1 m circuit =
  Ret (mkCircuit (qubits circuit) (clbits circuit)
                 (data circuit ++ ((fun i => Measure 0 i) <$> seq 0 m))).
Proof.
  intros Hm1 Hm0. unfold measure.
  rewrite decide_False by done. rewrite decide_True by done.
  by rewrite (foldl_append (Measure 0)).
Qed.

Lemma measure_returns n m circuit circuit' :
  measure n m circuit = Ret circuit' ->
  (n = m \/ n = 1%nat /\ m <> 0%nat) /\
  circuit' =
    mkCircuit (qubits circuit) (clbits circuit)
      (data circuit ++
       (if decide (n = m) then (fun i => Measure i i) <$> seq 0 n
        else (fun i => Measure 0 i) <$> seq 0 m)).
Proof.
  unfold measure. destruct (decide (n = m)) as [<-|Hnm].
  - rewrite foldl_append_measure. intros [= <-]. split; [by left|done].
  - destruct (decide (n = 1%nat /\ m <> 0%nat)) as [Hb|Hb]; [|done].
    rewrite (foldl_append (Measure 0)). intros [= <-]. split; [by right|done].
Qed.

Lemma qubit_in_range n i : (i < n)%nat -> qubit n i = Ret i.
Proof.
  intros Hi. unfold qubit. by rewrite (proj2 (Nat.ltb_lt i n) Hi).
Qed.

Lemma interfere_angles_irrelevant circuit n m (angles angles' : list np_float) :
  interfere_data_and_test_instances circuit n m angles =
  interfere_data_and_test_instances circuit n m angles'.
Proof. reflexivity. Qed.

(** C10: [interfere_data_and_test_instances] does not depend on [angles].
    Called with the registers of the circuit, it appends a Hadamard on
    [q[0]], a barrier and the measurements of [measure(q, c)] after the
    instructions the circuit already has: qubit [i] into clbit [i] when the
    registers have the same size, the qubit of a one-qubit register into
    every clbit otherwise.  Whenever it returns, every qubit is measured
    and no earlier instruction has changed. *)
Theorem interfere_appends_h_barrier_measure
    (circuit : QuantumCircuit) (n m : nat) (angles angles' : list np_float) :
  interfere_data_and_test_instances circuit n m angles =
  interfere_data_and_test_instances circuit n m angles' /\
  (qubits circuit = n -> clbits circuit = m ->
   ((0 < n)%nat -> n = m ->
    interfere_data_and_test_instances circuit n m angles =
    Ret (mkCircuit n m
           (data circuit
              ++ [HGate 0; Barrier (seq 0 n)]
              ++ ((fun i => Measure i i) <$> seq 0 n)))) /\
   (n = 1%nat -> m <> 1%nat -> m <> 0%nat ->
    interfere_data_and_test_instances circuit n m angles =
    Ret (mkCircuit n m
           (data circuit
              ++ [HGate 0; Barrier (seq 0 n)]
              ++ ((fun i => Measure 0 i) <$> seq 0 m)))) /\
   (forall circuit',
       interfere_data_and_test_instances circuit n m angles = Ret circuit' ->
       (0 < n)%nat /\
       (n = m \/ n = 1%nat /\ m <> 0%nat) /\
       data circuit' =
         data circuit
           ++ [HGate 0; Barrier (seq 0 n)]
           ++ (if decide (n = m) then (fun i => Measure i i) <$> seq 0 n
               else (fun i => Measure 0 i) <$> seq 0 m) /\
       (forall i, (i < n)%nat -> exists j, Measure i j ∈ data circuit'))).
Proof.
  split; [apply interfere_angles_irrelevant|].
  destruct circuit as [nq nc d]. cbn [qubits clbits data]. intros -> ->.
  unfold interfere_data_and_test_instances.
  split; [|split].
  - intros Hn <-. rewrite (qubit_in_range n 0 Hn). cbn [mbind py_bind].
    rewrite measure_registers. cbn [mbind py_bind].
    unfold barrier, h, append. cbn [qubits clbits data].
    by rewrite <- !app_assoc.
  - intros -> Hm1 Hm0. cbn [qubit Nat.ltb Nat.leb mbind py_bind].
    rewrite measure_broadcast by done. cbn [mbind py_bind].
    unfold barrier, h, append. cbn [qubits clbits data].
    by rewrite <- !app_assoc.
  - intros circuit' Hret.
    destruct n as [|n]; [discriminate Hret|].
    cbn [qubit Nat.ltb Nat.leb mbind py_bind] in Hret.
    destruct (measure (S n) m _) as [measured|] eqn:Hm; [|discriminate Hret].
    cbn [mbind py_bind] in Hret. injection Hret as <-.
    apply measure_returns in Hm as [Hsizes ->].
    unfold barrier, h, append. cbn [qubits clbits data].
    split; [lia|]. split; [exact Hsizes|]. split; [by rewrite <- !app_assoc|].
    intros i Hi. destruct (decide (S n = m)) as [<-|Hnm].
    + exists i. apply elem_of_app. right. apply list_elem_of_fmap.
      exists i. split; [done|]. apply elem_of_seq. lia.
    + destruct Hsizes as [|[Hn Hm0]]; [done|].
      assert (i = 0%nat) as -> by lia.
      exists 0%nat. apply elem_of_app. right. apply list_elem_of_fmap.
      exists 0%nat. split; [done|]. apply elem_of_seq. lia.
Qed.

Lemma interfere_appends_h_barrier_measure_witness :
  interfere_data_and_test_instances (new_circuit 4 4) 4 4 [NaN] =
  Ret (mkCircuit 4 4
         [HGate 0; Barrier [0; 1; 2; 3];
          Measure 0 0; Measure 1 1; Measure 2 2; Measure 3 3]).
Proof.
  exact (proj1 (proj2 (interfere_appends_h_barrier_measure
                         (new_circuit 4 4) 4 4 [NaN] [])
                      eq_refl eq_refl)
               ltac:(lia) eq_refl).
Defined.

Lemma prepare_state_returns (n m : nat) (angles : list np_float) (circuit : QuantumCircuit) :
  prepare_state n m angles = Ret circuit <->
  exists a0 a1,
    (4 <= n)%nat /\ angles !! 0%nat = Some a0 /\ angles !! 1%nat = Some a1 /\
    circuit =
      mkCircuit n m
        [HGate 0; HGate 1; Barrier (seq 0 n);
         Cu3Gate a0 (Fin 0) (Fin 0) 0 2; XGate 0; Barrier (seq 0 n);
         ToffoliGate 0 1 2; XGate 1; Barrier (seq 0 n);
         ToffoliGate 0 1 2; RYGate (Np.neg a1) 2;
         ToffoliGate 0 1 2; RYGate a1 2; Barrier (seq 0 n);
         CnotGate 1 3].
Proof.
  unfold prepare_state, getitem. split.
  - destruct n as [|[|[|[|n]]]]; try discriminate.
    cbn [qubit Nat.ltb Nat.leb mbind py_bind].
    destruct (angles !! 0%nat) as [a0|]; [|discriminate].
    destruct (angles !! 1%nat) as [a1|]; [|discriminate].
    cbn [mbind py_bind]. intros [= <-].
    exists a0, a1. split; [lia|]. by repeat split.
  - intros (a0 & a1 & Hn & -> & -> & ->).
    rewrite !qubit_in_range by lia. reflexivity.
Qed.

Lemma prepare_state_data (a0 a1 : np_float) :
  prepare_state q c [a0; a1] =
  Ret (mkCircuit 4 4
         [HGate 0; HGate 1; Barrier [0; 1; 2; 3];
          Cu3Gate a0 (Fin 0) (Fin 0) 0 2; XGate 0; Barrier [0; 1; 2; 3];
          ToffoliGate 0 1 2; XGate 1; Barrier [0; 1; 2; 3];
          ToffoliGate 0 1 2; RYGate (Np.neg a1) 2;
          ToffoliGate 0 1 2; RYGate a1 2; Barrier [0; 1; 2; 3];
          CnotGate 1 3]).
Proof. reflexivity. Qed.

(** ** Bits of a basis index *)

Lemma testbit_clearbit_same y k : Nat.testbit (Nat.clearbit y k) k = false.
Proof. rewrite Nat.clearbit_eqb, Nat.eqb_refl. apply andb_false_r. Qed.

Lemma testbit_setbit_same y k : Nat.testbit (Nat.setbit y k) k = true.
Proof. by rewrite Nat.setbit_eqb, Nat.eqb_refl. Qed.

Lemma testbit_clearbit_other y k j :
  k <> j -> Nat.testbit (Nat.clearbit y k) j = Nat.testbit y j.
Proof.
  intros Hkj. rewrite Nat.clearbit_eqb.
  rewrite (proj2 (Nat.eqb_neq k j) Hkj). apply andb_true_r.
Qed.

Lemma testbit_setbit_other y k j :
  k <> j -> Nat.testbit (Nat.setbit y k) j = Nat.testbit y j.
Proof.
  intros Hkj. rewrite Nat.setbit_eqb.
  by rewrite (proj2 (Nat.eqb_neq k j) Hkj).
Qed.

Ltac bits_eq :=
  apply Nat.bits_inj; intros ?j;
  repeat (rewrite Nat.setbit_eqb || rewrite Nat.clearbit_eqb);
  repeat match goal with
         | |- context [Nat.eqb ?a ?b] => destruct (Nat.eqb_spec a b); subst
         end;
  simpl; rewrite ?andb_true_r, ?andb_false_r, ?orb_true_r, ?orb_false_r;
  try done.

Lemma clearbit_clearbit y k : Nat.clearbit (Nat.clearbit y k) k = Nat.clearbit y k.
Proof. bits_eq. Qed.

Lemma setbit_setbit y k : Nat.setbit (Nat.setbit y k) k = Nat.setbit y k.
Proof. bits_eq. Qed.

Lemma setbit_clearbit y k : Nat.setbit (Nat.clearbit y k) k = Nat.setbit y k.
Proof. bits_eq. Qed.

Lemma clearbit_setbit y k : Nat.clearbit (Nat.setbit y k) k = Nat.clearbit y k.
Proof. bits_eq. Qed.

Create Rewrite HintDb qubit_bits.
#[local] Hint Rewrite testbit_clearbit_same testbit_setbit_same
  clearbit_clearbit setbit_clearbit clearbit_setbit setbit_setbit : qubit_bits.

Lemma setbit_set y k : Nat.testbit y k = true -> Nat.setbit y k = y.
Proof. intros Hk. bits_eq; by rewrite Hk. Qed.

Lemma clearbit_clear y k : Nat.testbit y k = false -> Nat.clearbit y k = y.
Proof. intros Hk. bits_eq; by rewrite Hk. Qed.

Lemma controls_clearbit y k ctls :
  k ∉ ctls ->
  forallb (Nat.testbit (Nat.clearbit y k)) ctls = forallb (Nat.testbit y) ctls.
Proof.
  induction ctls as [|j ctls IH]; [done|].
  intros Hk. apply not_elem_of_cons in Hk as [Hkj Hk]. simpl.
  by rewrite testbit_clearbit_other, IH.
Qed.

Lemma controls_setbit y k ctls :
  k ∉ ctls ->
  forallb (Nat.testbit (Nat.setbit y k)) ctls = forallb (Nat.testbit y) ctls.
Proof.
  induction ctls as [|j ctls IH]; [done|].
  intros Hk. apply not_elem_of_cons in Hk as [Hkj Hk]. simpl.
  by rewrite testbit_setbit_other, IH.
Qed.

(** ** One-qubit operators *)

(** Equalities of complex numbers by components. *)
Ltac lca :=
  repeat match goal with z : C |- _ => destruct z end;
  unfold Cadd, Cmul, Csub, RtoC, Cexp_i; simpl;
  f_equal; try ring.

Lemma apply1_ext U k (phi psi : state) y :
  (forall z, phi z = psi z) -> apply1 U k phi y = apply1 U k psi y.
Proof. intros Heq. unfold apply1. by rewrite !Heq. Qed.

Lemma apply1_mat_ext (U V : mat2) k psi y :
  (forall r c, U r c = V r c) -> apply1 U k psi y = apply1 V k psi y.
Proof. intros Heq. unfold apply1. by rewrite !Heq. Qed.

Lemma apply1_apply1 U V k psi y :
  apply1 U k (apply1 V k psi) y = apply1 (mmul U V) k psi y.
Proof.
  unfold apply1, mmul. autorewrite with qubit_bits.
  generalize (psi (Nat.clearbit y k)) (psi (Nat.setbit y k)).
  generalize (U (Nat.testbit y k) false) (U (Nat.testbit y k) true).
  generalize (V false false) (V false true) (V true false) (V true true).
  intros. lca.
Qed.

Lemma apply1_Im k psi y : apply1 Im k psi y = psi y.
Proof.
  unfold apply1, Im. destruct (Nat.testbit y k) eqn:Hk; simpl.
  - rewrite (setbit_set y k Hk). generalize (psi (Nat.clearbit y k)) (psi y).
    intros. lca.
  - rewrite (clearbit_clear y k Hk). generalize (psi (Nat.setbit y k)) (psi y).
    intros. lca.
Qed.

Lemma apply1_controlled V k ctls f psi y :
  k ∉ ctls ->
  apply1 V k (controlled ctls f psi) y =
  if forallb (Nat.testbit y) ctls then apply1 V k (f psi) y else apply1 V k psi y.
Proof.
  intros Hk. unfold apply1, controlled.
  rewrite controls_clearbit, controls_setbit by done.
  by destruct (forallb (Nat.testbit y) ctls).
Qed.

(** ** The rotation matrices *)

Lemma RYm_opp_RYm a r c : mmul (RYm a) (RYm (- a)) r c = Im r c.
Proof.
  unfold mmul, RYm, Im.
  replace (- a / 2)%R with (- (a / 2))%R by lra.
  rewrite cos_neg, sin_neg.
  pose proof (sin2_cos2 (a / 2)) as Hsc. unfold Rsqr in Hsc.
  destruct r, c; unfold Cadd, Cmul, RtoC; simpl; f_equal; nra.
Qed.

Lemma RYm_X_RYm_X a r c :
  mmul (mmul (mmul (RYm a) Xm) (RYm (- a))) Xm r c = RYm (2 * a) r c.
Proof.
  unfold mmul, RYm, Xm.
  replace (- a / 2)%R with (- (a / 2))%R by lra.
  replace (2 * a / 2)%R with (2 * (a / 2))%R by lra.
  rewrite cos_neg, sin_neg, cos_2a, sin_2a.
  destruct r, c; unfold Cadd, Cmul, RtoC; simpl; f_equal; ring.
Qed.

(** ** The decomposed double-controlled rotation *)

Lemma run_decomposed_rotation a psi :
  run [ToffoliGate 0 1 2; RYGate (Fin (- a)) 2; ToffoliGate 0 1 2; RYGate (Fin a) 2] psi =
  Some (apply1 (RYm a) 2
          (controlled [0; 1] (apply1 Xm 2)
             (apply1 (RYm (- a)) 2
                (controlled [0; 1] (apply1 Xm 2) psi)))).
Proof. reflexivity. Qed.

Lemma decomposed_rotation_pointwise a psi y :
  apply1 (RYm a) 2
    (controlled [0; 1] (apply1 Xm 2)
       (apply1 (RYm (- a)) 2
          (controlled [0; 1] (apply1 Xm 2) psi))) y =
  double_controlled_ry (2 * a) 0 1 2 psi y.
Proof.
  assert (Hfresh : 2 ∉ [0; 1]) by (rewrite !not_elem_of_cons; repeat split; [lia | lia | apply not_elem_of_nil]).
  unfold double_controlled_ry.
  rewrite apply1_controlled by exact Hfresh.
  replace (forallb (Nat.testbit y) [0; 1])
    with (Nat.testbit y 0 && Nat.testbit y 1) by (simpl; by rewrite andb_true_r).
  destruct (Nat.testbit y 0 && Nat.testbit y 1) eqn:Hctl.
  - (* both controls set: RY(a) X RY(-a) X *)
    rewrite apply1_apply1.
    rewrite apply1_apply1.
    rewrite apply1_controlled by exact Hfresh.
    cbn [forallb]. rewrite andb_true_r, Hctl.
    rewrite apply1_apply1.
    apply apply1_mat_ext, RYm_X_RYm_X.
  - (* otherwise: RY(a) RY(-a) *)
    rewrite apply1_apply1.
    rewrite apply1_controlled by exact Hfresh.
    cbn [forallb]. rewrite andb_true_r, Hctl.
    rewrite (apply1_mat_ext _ Im) by apply RYm_opp_RYm.
    apply apply1_Im.
Qed.

Lemma ket_other x z j :
  Nat.testbit z j <> Nat.testbit x j -> ket x z = RtoC 0.
Proof.
  intros Hj. unfold ket. destruct (Nat.eqb_spec z x) as [->|]; [done|done].
Qed.

Lemma double_controlled_ry_ket theta x y :
  double_controlled_ry theta 0 1 2 (ket x) y =
  if Nat.testbit x 0 && Nat.testbit x 1
  then apply1 (RYm theta) 2 (ket x) y
  else ket x y.
Proof.
  unfold double_controlled_ry.
  destruct (Nat.testbit y 0) eqn:Hy0, (Nat.testbit y 1) eqn:Hy1,
           (Nat.testbit x 0) eqn:Hx0, (Nat.testbit x 1) eqn:Hx1;
    simpl; try reflexivity; unfold apply1;
    first
      [ rewrite (ket_other x (Nat.clearbit y 2) 0), (ket_other x (Nat.setbit y 2) 0),
          (ket_other x y 0)
          by (rewrite ?testbit_clearbit_other, ?testbit_setbit_other by lia; congruence)
      | rewrite (ket_other x (Nat.clearbit y 2) 1), (ket_other x (Nat.setbit y 2) 1),
          (ket_other x y 1)
          by (rewrite ?testbit_clearbit_other, ?testbit_setbit_other by lia; congruence) ];
    generalize (RYm theta (Nat.testbit y 2) false) (RYm theta (Nat.testbit y 2) true);
    intros; lca.
Qed.

(** C1: in the circuit built by [prepare_state], the four instructions
    [ccx; ry(-angles[1]); ccx; ry(angles[1])] on ancilla 0, index 1 and data 2
    act on every state as the double-controlled rotation [RY(2*angles[1])]:
    on a basis state whose ancilla and index bits are both 1 the data qubit
    is rotated by [RY(2*angles[1])], on any other basis state nothing
    changes. *)
Theorem second_training_block_is_double_controlled_ry
    (n m : nat) (angles : list np_float) (a : R) (circuit : QuantumCircuit) :
  prepare_state n m angles = Ret circuit ->
  angles !! 1%nat = Some (Fin a) ->
  second_training_block circuit =
    [ToffoliGate 0 1 2; RYGate (Fin (- a)) 2; ToffoliGate 0 1 2; RYGate (Fin a) 2] /\
  (forall psi, exists psi',
      run (second_training_block circuit) psi = Some psi' /\
      forall y, psi' y = double_controlled_ry (2 * a) 0 1 2 psi y) /\
  (forall x, exists psi',
      run (second_training_block circuit) (ket x) = Some psi' /\
      forall y, psi' y =
                if Nat.testbit x 0 && Nat.testbit x 1
                then apply1 (RYm (2 * a)) 2 (ket x) y
                else ket x y).
Proof.
  intros Hprep Ha1.
  apply prepare_state_returns in Hprep as (a0 & a1 & _ & _ & Ha1' & ->).
  rewrite Ha1 in Ha1'. injection Ha1' as <-.
  split; [reflexivity|].
  change (second_training_block _)
    with [ToffoliGate 0 1 2; RYGate (Fin (- a)) 2; ToffoliGate 0 1 2; RYGate (Fin a) 2].
  split.
  - intros psi. eexists. split; [apply run_decomposed_rotation|].
    apply decomposed_rotation_pointwise.
  - intros x0. eexists. split; [apply run_decomposed_rotation|].
    intros y. rewrite decomposed_rotation_pointwise.
    apply double_controlled_ry_ket.
Qed.

Lemma second_training_block_is_double_controlled_ry_witness :
  second_training_block
    (mkCircuit 4 4
       [HGate 0; HGate 1; Barrier [0; 1; 2; 3];
        Cu3Gate NaN (Fin 0) (Fin 0) 0 2; XGate 0; Barrier [0; 1; 2; 3];
        ToffoliGate 0 1 2; XGate 1; Barrier [0; 1; 2; 3];
        ToffoliGate 0 1 2; RYGate (Np.neg (Fin 1)) 2;
        ToffoliGate 0 1 2; RYGate (Fin 1) 2; Barrier [0; 1; 2; 3];
        CnotGate 1 3]) =
    [ToffoliGate 0 1 2; RYGate (Fin (- 1)) 2; ToffoliGate 0 1 2; RYGate (Fin 1) 2].
Proof.
  exact (proj1 (second_training_block_is_double_controlled_ry
                  4 4 [NaN; Fin 1] 1 _ eq_refl eq_refl)).
Defined.

(** ** The rotation angles *)

Lemma arccos_in_domain a0 :
  (-1 <= a0 <= 1)%R -> Np.arccos (Fin a0) = Fin (acos a0).
Proof.
  intros [Hlo Hhi]. unfold Np.arccos.
  destruct (Rle_dec (-1) a0); [|done].
  by destruct (Rle_dec a0 1).
Qed.

Lemma arccos_out_of_domain a0 :
  (1 < Rabs a0)%R -> Np.arccos (Fin a0) = NaN.
Proof.
  intros Habs. unfold Np.arccos.
  destruct (Rle_dec (-1) a0) as [Hlo|]; [|done].
  destruct (Rle_dec a0 1) as [Hhi|]; [|done].
  exfalso. unfold Rabs in Habs. destruct (Rcase_abs a0); lra.
Qed.

Lemma get_angle_normalized a0 :
  (-1 <= a0 <= 1)%R -> get_angle (Fin a0) = Ret (Fin (2 * acos a0)).
Proof.
  intros Ha. unfold get_angle. by rewrite arccos_in_domain.
Qed.

Lemma acos_not_0 a0 : (-1 <= a0 < 1)%R -> acos a0 <> 0%R.
Proof.
  intros [Hlo Hhi] Hacos.
  assert (Hcos : cos (acos a0) = a0) by (apply cos_acos; lra).
  rewrite Hacos, cos_0 in Hcos. lra.
Qed.

(** Amplitude encoding: [RY(get_angle(a0))] takes [|0>] to
    [a0 |0> + sqrt(1 - a0^2) |1>]. *)
Lemma RYm_get_angle a0 :
  (-1 <= a0 <= 1)%R ->
  RYm (2 * acos a0) false false = RtoC a0 /\
  RYm (2 * acos a0) true false = RtoC (sqrt (1 - a0²)).
Proof.
  intros Ha. unfold RYm.
  replace (2 * acos a0 / 2)%R with (acos a0) by lra.
  by rewrite cos_acos, sin_acos.
Qed.

Lemma test_angles_value :
  test_angles = Ret [Fin (2 * acos (-0.549)); Fin (2 * acos 0.053)].
Proof.
  unfold test_angles. cbn -[get_angle].
  rewrite !get_angle_normalized by lra. reflexivity.
Qed.

Lemma training_angle_value : training_angle = Ret (Fin (acos 0.79)).
Proof.
  unfold training_angle. cbn -[get_angle].
  rewrite get_angle_normalized by lra. cbn.
  do 2 f_equal. lra.
Qed.

Lemma angles_0_value :
  angles_0 = Ret [Fin (2 * acos (-0.549)); Fin (acos 0.79)].
Proof.
  unfold angles_0, angles_for.
  by rewrite test_angles_value, training_angle_value.
Qed.

Lemma angles_1_value :
  angles_1 = Ret [Fin (2 * acos 0.053); Fin (acos 0.79)].
Proof.
  unfold angles_1, angles_for.
  by rewrite test_angles_value, training_angle_value.
Qed.

(** C2, as stated, fails for the second training vector: [angles[1]] is not
    the value [get_angle] returns for its first component. *)
Lemma angles_1_is_get_angle_counterexample :
  ~ (forall angles a,
        angles_0 = Ret angles ->
        get_angle (Fin 0.79) = Ret a ->
        angles !! 1%nat = Some a).
Proof.
  intros Hclaim.
  specialize (Hclaim _ _ angles_0_value (get_angle_normalized 0.79 ltac:(lra))).
  simpl in Hclaim. injection Hclaim as Heq.
  apply (acos_not_0 0.79); lra.
Qed.

(** C2, amended: [get_angle(a0)] is [2*arccos(a0)] on [[-1, 1]]; the test
    vector's [angles[0]] is that angle and is the [cu3] parameter, while
    [angles[1]] is half of it, [get_angle(a0)/2 = arccos(a0)], passed to the
    two [ry] gates with opposite signs. *)
Theorem get_angle_and_rotation_parameters (a0 : R) :
  (-1 <= a0 <= 1)%R ->
  get_angle (Fin a0) = Ret (Fin (2 * acos a0)) /\
  angles_0 = Ret [Fin (2 * acos (-0.549)); Fin (acos 0.79)] /\
  angles_1 = Ret [Fin (2 * acos 0.053); Fin (acos 0.79)] /\
  (exists circuit,
      state_preparation_0 = Ret circuit /\
      data circuit !! 3%nat = Some (Cu3Gate (Fin (2 * acos (-0.549))) (Fin 0) (Fin 0) 0 2) /\
      data circuit !! 10%nat = Some (RYGate (Fin (- acos 0.79)) 2) /\
      data circuit !! 12%nat = Some (RYGate (Fin (acos 0.79)) 2)) /\
  (exists circuit,
      state_preparation_1 = Ret circuit /\
      data circuit !! 3%nat = Some (Cu3Gate (Fin (2 * acos 0.053)) (Fin 0) (Fin 0) 0 2) /\
      data circuit !! 10%nat = Some (RYGate (Fin (- acos 0.79)) 2) /\
      data circuit !! 12%nat = Some (RYGate (Fin (acos 0.79)) 2)).
Proof.
  intros Ha.
  split; [by apply get_angle_normalized|].
  split; [apply angles_0_value|].
  split; [apply angles_1_value|].
  split.
  - unfold state_preparation_0. rewrite angles_0_value.
    eexists. split; [apply prepare_state_data|]. by repeat split.
  - unfold state_preparation_1. rewrite angles_1_value.
    eexists. split; [apply prepare_state_data|]. by repeat split.
Qed.

Lemma get_angle_and_rotation_parameters_witness :
  get_angle (Fin 0.79) = Ret (Fin (2 * acos 0.79)).
Proof.
  exact (proj1 (get_angle_and_rotation_parameters 0.79 ltac:(lra))).
Defined.

(** C7: nothing checks normalization.  For [|a0| > 1], [get_angle] returns
    [nan] without raising, and [prepare_state] builds its circuit from any
    two angles, [nan] included, as it does from the angle computed for an
    amplitude outside [[-1, 1]]. *)
Theorem get_angle_unchecked (a0 : R) :
  (1 < Rabs a0)%R ->
  get_angle (Fin a0) = Ret NaN /\
  (forall (n m : nat) (b0 b1 : np_float),
      (4 <= n)%nat ->
      exists circuit,
        prepare_state n m [b0; b1] = Ret circuit /\
        data circuit !! 3%nat = Some (Cu3Gate b0 (Fin 0) (Fin 0) 0 2)) /\
  (exists circuit,
      (a ← get_angle (Fin a0); prepare_state q c [a; Np.div_by 2 a]) = Ret circuit /\
      data circuit !! 3%nat = Some (Cu3Gate NaN (Fin 0) (Fin 0) 0 2)).
Proof.
  intros Habs.
  assert (Hnan : get_angle (Fin a0) = Ret NaN).
  { unfold get_angle. by rewrite arccos_out_of_domain. }
  split; [exact Hnan|]. split.
  - intros n m b0 b1 Hn. eexists.
    split; [apply prepare_state_returns; by exists b0, b1|reflexivity].
  - rewrite Hnan. eexists. split; [apply prepare_state_data|done].
Qed.

Lemma get_angle_unchecked_witness : get_angle (Fin 2) = Ret NaN.
Proof.
  refine (proj1 (get_angle_unchecked 2 _)).
  unfold Rabs. destruct (Rcase_abs 2); lra.
Defined.

(** ** Exercises 1 and 2: amplitudes *)

Lemma circuit_ex1_data :
  circuit_ex1 = Ret (mkCircuit 1 1 [XGate 0; HGate 0; XGate 0]).
Proof. reflexivity. Qed.

Lemma circuit_ex2_data :
  circuit_ex2 = Ret (mkCircuit 3 3 [HGate 0; CnotGate 0 1; CnotGate 1 2]).
Proof. reflexivity. Qed.

Lemma sqrt2_neq_0 : sqrt 2 <> 0%R.
Proof. apply Rgt_not_eq, Rlt_gt, sqrt_lt_R0. lra. Qed.

Lemma allclose_refl (l : list C) : allclose l l.
Proof.
  unfold allclose. induction l as [|v l IH]; constructor; [|exact IH].
  assert (Hzero : Cabs (Csub v v) = 0%R).
  { unfold Cabs, Cnorm2, Csub. simpl.
    replace ((v.1 - v.1) * (v.1 - v.1) + (v.2 - v.2) * (v.2 - v.2))%R with 0%R by ring.
    apply sqrt_0. }
  rewrite Hzero. pose proof (sqrt_pos (Cnorm2 v)) as Hpos.
  unfold Cabs. lra.
Qed.

Lemma Cmul_RtoC a b : Cmul (RtoC a) (RtoC b) = RtoC (a * b).
Proof. lca. Qed.

Lemma Cadd_RtoC a b : Cadd (RtoC a) (RtoC b) = RtoC (a + b).
Proof. lca. Qed.

(** Evaluates the closed index and bit computations of the goal. *)
Ltac eval_bits :=
  repeat match goal with
    | |- context [forallb ?f ?l] =>
        let v := eval vm_compute in (forallb f l) in change (forallb f l) with v
    | |- context [Nat.testbit ?a ?b] =>
        let v := eval vm_compute in (Nat.testbit a b) in change (Nat.testbit a b) with v
    | |- context [Nat.clearbit ?a ?b] =>
        let v := eval vm_compute in (Nat.clearbit a b) in change (Nat.clearbit a b) with v
    | |- context [Nat.setbit ?a ?b] =>
        let v := eval vm_compute in (Nat.setbit a b) in change (Nat.setbit a b) with v
    | |- context [Nat.eqb ?a ?b] =>
        let v := eval vm_compute in (Nat.eqb a b) in change (Nat.eqb a b) with v
    | |- context [xorb ?a ?b] =>
        let v := eval vm_compute in (xorb a b) in change (xorb a b) with v
    | |- context [andb ?a ?b] =>
        let v := eval vm_compute in (andb a b) in change (andb a b) with v
    end;
  cbv beta iota.

(** Evaluates the real amplitude of a circuit of H, X, CNOT and Toffoli
    gates at a concrete index. *)
Ltac amplitude :=
  unfold apply1, controlled; eval_bits;
  unfold ket, Xm, Hm; eval_bits;
  repeat first [rewrite Cmul_RtoC | rewrite Cadd_RtoC];
  f_equal; unfold Rdiv; ring.

Lemma get_amplitudes_ex1 :
  get_amplitudes (mkCircuit 1 1 [XGate 0; HGate 0; XGate 0]) = Some expected_ex1.
Proof.
  unfold get_amplitudes, statevector, expected_ex1. simpl.
  repeat f_equal; amplitude.
Qed.

Lemma get_amplitudes_ex2 :
  get_amplitudes (mkCircuit 3 3 [HGate 0; CnotGate 0 1; CnotGate 1 2]) = Some expected_ex2.
Proof.
  unfold get_amplitudes, statevector, expected_ex2. simpl.
  repeat f_equal; amplitude.
Qed.

(** C4: the circuit [X; H; X] of exercise 1 takes [|0>] to the amplitudes
    [[-1/sqrt 2, 1/sqrt 2]], so the cell's [np.allclose] assertion holds. *)
Theorem exercise1_amplitudes :
  exists circuit amplitudes,
    circuit_ex1 = Ret circuit /\
    get_amplitudes circuit = Some amplitudes /\
    amplitudes = [RtoC (-1 / sqrt 2); RtoC (1 / sqrt 2)] /\
    allclose amplitudes expected_ex1.
Proof.
  exists (mkCircuit 1 1 [XGate 0; HGate 0; XGate 0]), expected_ex1.
  split; [apply circuit_ex1_data|].
  split; [apply get_amplitudes_ex1|].
  split; [reflexivity|apply allclose_refl].
Qed.

(** C5: the circuit [H 0; CNOT 0 1; CNOT 1 2] of exercise 2 takes [|000>] to
    the GHZ amplitudes [[1/sqrt 2, 0, 0, 0, 0, 0, 0, 1/sqrt 2]]. *)
Theorem exercise2_amplitudes :
  exists circuit amplitudes,
    circuit_ex2 = Ret circuit /\
    get_amplitudes circuit = Some amplitudes /\
    amplitudes =
      [RtoC (1 / sqrt 2); RtoC 0; RtoC 0; RtoC 0;
       RtoC 0; RtoC 0; RtoC 0; RtoC (1 / sqrt 2)] /\
    allclose amplitudes expected_ex2.
Proof.
  exists (mkCircuit 3 3 [HGate 0; CnotGate 0 1; CnotGate 1 2]), expected_ex2.
  split; [apply circuit_ex2_data|].
  split; [apply get_amplitudes_ex2|].
  split; [reflexivity|apply allclose_refl].
Qed.

(** ** Exercise 3: measurement counts *)

Lemma circuit_ex3_data :
  circuit_ex3 =
  Ret (mkCircuit 3 3
         [HGate 0; CnotGate 0 1; CnotGate 1 2;
          Measure 0 0; Measure 1 1; Measure 2 2]).
Proof. reflexivity. Qed.

Lemma Cnorm2_RtoC_0 : Cnorm2 (RtoC 0) = 0%R.
Proof. unfold Cnorm2, RtoC. simpl. ring. Qed.

Lemma Cnorm2_inv_sqrt2 : Cnorm2 (RtoC (1 / sqrt 2)) = (1 / 2)%R.
Proof.
  unfold Cnorm2, RtoC. simpl.
  pose proof sqrt2_neq_0 as Hneq.
  assert (Hsq : (sqrt 2 * sqrt 2 = 2)%R) by (apply sqrt_sqrt; lra).
  replace (1 / sqrt 2 * (1 / sqrt 2) + 0 * 0)%R with (1 / (sqrt 2 * sqrt 2))%R
    by (field; exact Hneq).
  by rewrite Hsq.
Qed.

Lemma run_ghz :
  run [HGate 0; CnotGate 0 1; CnotGate 1 2] (ket 0) =
  Some (controlled [1] (apply1 Xm 2)
          (controlled [0] (apply1 Xm 1) (apply1 Hm 0 (ket 0)))).
Proof. reflexivity. Qed.

Lemma ghz_amplitudes :
  controlled [1] (apply1 Xm 2)
    (controlled [0] (apply1 Xm 1) (apply1 Hm 0 (ket 0))) <$> seq 0 8 =
  expected_ex2.
Proof.
  unfold expected_ex2. cbn [fmap list_fmap seq].
  repeat f_equal; amplitude.
Qed.

Lemma born_sum_ghz (psi : state) key :
  psi <$> seq 0 8 = expected_ex2 ->
  foldr Rplus 0%R
    ((fun y =>
        if String.eqb
             (outcome_key
                (mkCircuit 3 3
                   [HGate 0; CnotGate 0 1; CnotGate 1 2;
                    Measure 0 0; Measure 1 1; Measure 2 2]) y) key
        then Cnorm2 (psi y) else 0%R) <$> seq 0 8) =
  ((if String.eqb "000" key then 1 / 2 else 0) +
   (if String.eqb "111" key then 1 / 2 else 0))%R.
Proof.
  intros Hamp. unfold expected_ex2 in Hamp. cbn [fmap list_fmap seq] in Hamp.
  injection Hamp as H0 H1 H2 H3 H4 H5 H6 H7.
  cbn [fmap list_fmap seq foldr].
  rewrite H0, H1, H2, H3, H4, H5, H6, H7.
  rewrite Cnorm2_RtoC_0, Cnorm2_inv_sqrt2.
  repeat match goal with
         | |- context [outcome_key ?c ?y] =>
             let v := eval vm_compute in (outcome_key c y) in
             change (outcome_key c y) with v
         end.
  repeat match goal with
         | |- context [if ?b then 0%R else 0%R] =>
             replace (if b then 0%R else 0%R) with 0%R by (by destruct b)
         end.
  ring.
Qed.

Lemma outcome_prob_ex3 key :
  outcome_prob
    (mkCircuit 3 3
       [HGate 0; CnotGate 0 1; CnotGate 1 2;
        Measure 0 0; Measure 1 1; Measure 2 2]) key =
  Some ((if String.eqb "000" key then 1 / 2 else 0) +
        (if String.eqb "111" key then 1 / 2 else 0))%R.
Proof.
  unfold outcome_prob.
  change (gates _) with [HGate 0; CnotGate 0 1; CnotGate 1 2].
  rewrite run_ghz. cbn [mbind option_bind qubits].
  f_equal. apply born_sum_ghz, ghz_amplitudes.
Qed.

Lemma possible_outcome_ex3 key :
  (exists p,
      outcome_prob
        (mkCircuit 3 3
           [HGate 0; CnotGate 0 1; CnotGate 1 2;
            Measure 0 0; Measure 1 1; Measure 2 2]) key = Some p /\ (0 < p)%R) <->
  key = "000" \/ key = "111".
Proof.
  rewrite outcome_prob_ex3. split.
  - intros (p & Heq & Hpos). apply (inj Some) in Heq. subst p. revert Hpos.
    destruct (String.eqb_spec "000" key) as [<-|_]; [by left|].
    destruct (String.eqb_spec "111" key) as [<-|_]; [by right|].
    lra.
  - intros [-> | ->]; eexists; (split; [reflexivity|]); simpl; lra.
Qed.

Lemma tally_lookup outcomes key :
  tally outcomes !! key =
  if decide (count_occ string_dec outcomes key = 0%nat) then None
  else Some (Z.of_nat (count_occ string_dec outcomes key)).
Proof.
  induction outcomes as [|o outcomes IH]; [done|].
  change (tally (o :: outcomes))
    with (<[o := (default 0 (tally outcomes !! o) + 1)%Z]> (tally outcomes)).
  destruct (decide (o = key)) as [->|Hne].
  - rewrite lookup_insert_eq, IH, count_occ_cons_eq by done.
    destruct (decide (S _ = 0%nat)) as [|_]; [lia|].
    f_equal. rewrite Nat2Z.inj_succ.
    destruct (decide _) as [->|]; cbn [from_option]; unfold Datatypes.id; lia.
  - by rewrite lookup_insert_ne, IH, count_occ_cons_neq.
Qed.

Lemma tally_count outcomes key :
  default 0%Z (tally outcomes !! key) = Z.of_nat (count_occ string_dec outcomes key).
Proof.
  rewrite tally_lookup. destruct (decide _) as [->|]; done.
Qed.

Lemma two_outcomes_count (outcomes : list string) (k0 k1 : string) :
  k0 <> k1 ->
  Forall (fun key => key = k0 \/ key = k1) outcomes ->
  (count_occ string_dec outcomes k0 + count_occ string_dec outcomes k1 =
   length outcomes)%nat.
Proof.
  intros Hne. induction 1 as [|o outcomes [-> | ->] _ IH]; [done| |].
  - rewrite count_occ_cons_eq, count_occ_cons_neq by done. simpl. lia.
  - rewrite count_occ_cons_neq, count_occ_cons_eq by done. simpl. lia.
Qed.

Lemma near_half_table :
  forallb (fun k => Bool.eqb (near_half k) ((40 <=? k)%Z && (k <=? 60)%Z))
          (Z.of_nat <$> seq 0 101) = true.
Proof. vm_compute. reflexivity. Qed.

Lemma near_half_spec k :
  (0 <= k <= 100)%Z -> near_half k = true <-> (40 <= k <= 60)%Z.
Proof.
  intros Hk.
  pose proof (proj1 (forallb_forall _ _) near_half_table k) as Htab.
  assert (Hin : In k (Z.of_nat <$> seq 0 101)).
  { apply list_elem_of_In, list_elem_of_fmap. exists (Z.to_nat k).
    split; [lia|]. apply list_elem_of_In, in_seq. lia. }
  specialize (Htab Hin). apply Bool.eqb_prop in Htab. rewrite Htab.
  rewrite andb_true_iff, Z.leb_le, Z.leb_le. done.
Qed.

Lemma assert_counts_passes (counts : gmap string Z) (n0 n1 : nat) :
  counts !! "000" = (if decide (n0 = 0%nat) then None else Some (Z.of_nat n0)) ->
  counts !! "111" = (if decide (n1 = 0%nat) then None else Some (Z.of_nat n1)) ->
  (n0 + n1 = 100)%nat ->
  assert_counts counts = Ret tt <-> (40 <= n0 <= 60)%nat.
Proof.
  intros H0 H1 Hsum. unfold assert_counts, dict_getitem. rewrite H0, H1.
  assert (Hn0 : near_half (Z.of_nat n0) = true <-> (40 <= n0 <= 60)%nat)
    by (rewrite near_half_spec; lia).
  assert (Hn1 : near_half (Z.of_nat n1) = true <-> (40 <= n1 <= 60)%nat)
    by (rewrite near_half_spec; lia).
  destruct (decide (n0 = 0%nat)) as [->|Hz0]; [split; [done|lia]|].
  cbn [mbind py_bind].
  destruct (near_half (Z.of_nat n0)) eqn:Hnear0; cbn [assert mbind py_bind];
    [|split; [done|intros Hr; apply Hn0 in Hr; done]].
  destruct (decide (n1 = 0%nat)) as [->|Hz1]; [split; [done|lia]|].
  cbn [mbind py_bind].
  destruct (near_half (Z.of_nat n1)) eqn:Hnear1; cbn [assert mbind py_bind];
    [|split; [done|intros Hr; assert (40 <= n1 <= 60)%nat as Hr1 by lia;
                   apply Hn1 in Hr1; done]].
  replace (Z.of_nat n0 + Z.of_nat n1 =? 100)%Z with true
    by (symmetry; apply Z.eqb_eq; lia).
  split; [intros _; by apply Hn0|done].
Qed.

Lemma split_is_run (n0 n1 : nat) :
  is_run
    (mkCircuit 3 3
       [HGate 0; CnotGate 0 1; CnotGate 1 2;
        Measure 0 0; Measure 1 1; Measure 2 2])
    (n0 + n1) (replicate n0 "000" ++ replicate n1 "111").
Proof.
  split; [reflexivity|]. split.
  - by rewrite length_app, !length_replicate.
  - apply Forall_app. split; apply Forall_replicate, possible_outcome_ex3; auto.
Qed.

(** C6, as stated, fails for some runs: 39 times [000] and 61 times [111]
    is a possible result of 100 shots, and the assertion cell rejects it. *)
Lemma ghz_counts_near_half_counterexample :
  ~ (forall circuit counts,
        circuit_ex3 = Ret circuit ->
        get_counts circuit counts ->
        assert_counts counts = Ret tt).
Proof.
  intros Hclaim.
  specialize (Hclaim _ (tally (replicate 39 "000" ++ replicate 61 "111"))
                circuit_ex3_data).
  assert (Hrun : get_counts
                   (mkCircuit 3 3
                      [HGate 0; CnotGate 0 1; CnotGate 1 2;
                       Measure 0 0; Measure 1 1; Measure 2 2])
                   (tally (replicate 39 "000" ++ replicate 61 "111"))).
  { eexists. split; [apply (split_is_run 39 61)|reflexivity]. }
  specialize (Hclaim Hrun).
  apply (assert_counts_passes _ 39 61) in Hclaim; [lia| | |lia].
  - by rewrite tally_lookup.
  - by rewrite tally_lookup.
Qed.

(** C6, amended: every outcome of the measured GHZ circuit is [000] or
    [111], each with probability 1/2, so in every run of 100 shots the two
    counts add up to 100; the assertion cell passes exactly for the runs
    with between 40 and 60 outcomes [000], not for every run. *)
Theorem ghz_counts (circuit : QuantumCircuit) (counts : gmap string Z) :
  circuit_ex3 = Ret circuit ->
  get_counts circuit counts ->
  outcome_prob circuit "000" = Some (1 / 2)%R /\
  outcome_prob circuit "111" = Some (1 / 2)%R /\
  (forall key n, counts !! key = Some n -> key = "000" \/ key = "111") /\
  (default 0 (counts !! "000") + default 0 (counts !! "111") = 100)%Z /\
  (assert_counts counts = Ret tt <->
   (40 <= default 0 (counts !! "000") <= 60)%Z).
Proof.
  rewrite circuit_ex3_data. intros Hcirc. injection Hcirc as <-.
  intros (outcomes & (_ & Hlen & Hposs) & ->).
  assert (Htwo : Forall (fun key => key = "000" \/ key = "111") outcomes).
  { eapply List.Forall_impl; [|exact Hposs]. intros key. apply possible_outcome_ex3. }
  pose proof (two_outcomes_count outcomes "000" "111" ltac:(done) Htwo) as Hsum.
  rewrite Hlen in Hsum.
  split; [rewrite outcome_prob_ex3; simpl; f_equal; lra|].
  split; [rewrite outcome_prob_ex3; simpl; f_equal; lra|].
  split; [|split].
  - intros key n. rewrite tally_lookup.
    destruct (decide _) as [|Hcount]; [done|]. intros _.
    assert (Hin : In key outcomes) by (apply (count_occ_In string_dec); lia).
    by apply (proj1 (List.Forall_forall _ _) Htwo).
  - rewrite !tally_count. lia.
  - rewrite tally_count.
    rewrite (assert_counts_passes _ _ _ (tally_lookup outcomes "000")
               (tally_lookup outcomes "111") Hsum).
    lia.
Qed.

Lemma ghz_counts_witness :
  assert_counts (tally (replicate 50 "000" ++ replicate 50 "111")) = Ret tt <->
  (40 <= default 0 (tally (replicate 50 "000" ++ replicate 50 "111") !! "000") <= 60)%Z.
Proof.
  refine (proj2 (proj2 (proj2 (proj2
    (ghz_counts
       (mkCircuit 3 3
          [HGate 0; CnotGate 0 1; CnotGate 1 2;
           Measure 0 0; Measure 1 1; Measure 2 2])
       (tally (replicate 50 "000" ++ replicate 50 "111"))
       eq_refl _))))).
  exists (replicate 50 "000" ++ replicate 50 "111").
  split; [apply (split_is_run 50 50)|reflexivity].
Defined.

(** ** Python helpers *)

Lemma comprehension_total {A : Type} (p : A -> py bool) (f : A -> bool) (l : list A) :
  (forall a, a ∈ l -> p a = Ret (f a)) ->
  comprehension p l = Ret (filter (fun a => f a = true) l).
Proof.
  induction l as [|a l IH]; intros Hp; [done|].
  cbn [comprehension]. rewrite (Hp a) by apply list_elem_of_here.
  rewrite IH by (intros b Hb; apply Hp; by apply list_elem_of_further).
  cbn [mbind py_bind]. rewrite filter_cons.
  destruct (f a); [by rewrite decide_True|by rewrite decide_False].
Qed.

Lemma comprehension_raise {A : Type} (p : A -> py bool) (e : py_error) (l : list A) :
  (exists a, a ∈ l /\ p a = Raise e) ->
  (forall a e', a ∈ l -> p a = Raise e' -> e' = e) ->
  comprehension p l = Raise e.
Proof.
  induction l as [|a l IH]; intros (b & Hb & Hraise) Hsame.
  { by apply elem_of_nil in Hb. }
  cbn [comprehension].
  destruct (p a) as [v|e'] eqn:Hpa; cbn [mbind py_bind].
  - rewrite IH; [done| |].
    + apply elem_of_cons in Hb as [->|Hb]; [congruence|eauto].
    + intros a' e' Ha'. apply Hsame. by apply list_elem_of_further.
  - f_equal. apply (Hsame a); [apply list_elem_of_here|done].
Qed.

Lemma str_last_get (state : string) :
  str_last state =
  match String.get (String.length state - 1) state with
  | Some a => Ret a
  | None => Raise IndexError
  end.
Proof.
  induction state as [|a [|b state] IH]; [done|done|].
  change (str_last (String a (String b state))) with (str_last (String b state)).
  rewrite IH. cbn [String.length].
  replace (S (S (String.length state)) - 1)%nat with (S (String.length state)) by lia.
  cbn [String.get].
  by replace (S (String.length state) - 1)%nat with (String.length state) by lia.
Qed.

Lemma string_get_lt (state : string) (n : nat) :
  (n < String.length state)%nat -> exists a, String.get n state = Some a.
Proof.
  revert n. induction state as [|b state IH]; intros n Hn; cbn in Hn; [lia|].
  destruct n as [|n]; [by exists b|]. apply IH. lia.
Qed.

Lemma str_last_nonempty (state : string) :
  state <> EmptyString ->
  (a ← str_last state; Ret (bool_decide (a = "0"%char))) = Ret (ends_with "0" state).
Proof.
  intros Hne. unfold ends_with. rewrite str_last_get.
  destruct (string_get_lt state (String.length state - 1)) as [a ->].
  { destruct state; [done|]. cbn. lia. }
  cbn [mbind py_bind]. f_equal. apply bool_decide_ext. naive_solver.
Qed.

Lemma str_first_nonempty (state : string) (binary_class : Z) (a : ascii) :
  state <> EmptyString ->
  str binary_class = String a EmptyString ->
  (b ← str_first state; Ret (bool_decide (String b EmptyString = str binary_class))) =
  Ret (starts_with a state).
Proof.
  intros Hne ->. destruct state as [|b state]; [done|].
  cbn [str_first mbind py_bind]. f_equal. unfold starts_with. cbn [String.get].
  apply bool_decide_ext. naive_solver.
Qed.

(** ** Dictionaries *)

Lemma foldr_insert_fresh (l : list (string * Z)) (acc : gmap string Z) k v :
  k ∉ l.*1 ->
  foldr (fun kv m => <[kv.1 := kv.2]> m) (<[k := v]> acc) l =
  <[k := v]> (foldr (fun kv m => <[kv.1 := kv.2]> m) acc l).
Proof.
  induction l as [|[k' v'] l IH]; [done|].
  rewrite fmap_cons, not_elem_of_cons. intros [Hne Hk]. cbn [foldr fst snd].
  rewrite IH by done. by apply insert_insert_ne.
Qed.

Lemma foldl_insert_NoDup (l : list (string * Z)) (acc : gmap string Z) :
  NoDup l.*1 ->
  foldl (fun m kv => <[kv.1 := kv.2]> m) acc l =
  foldr (fun kv m => <[kv.1 := kv.2]> m) acc l.
Proof.
  revert acc. induction l as [|[k v] l IH]; intros acc Hnd; [done|].
  rewrite fmap_cons in Hnd.
  pose proof (NoDup_cons_1_1 _ _ Hnd) as Hk.
  apply NoDup_cons_1_2 in Hnd.
  cbn [foldl foldr fst snd]. rewrite IH by done.
  by apply foldr_insert_fresh.
Qed.

Lemma dict_NoDup (l : list (string * Z)) :
  NoDup l.*1 -> dict l = list_to_map l.
Proof. intros Hnd. unfold dict. by rewrite foldl_insert_NoDup. Qed.

Lemma dict_filter_items (P : string * Z -> Prop) `{!forall so, Decision (P so)}
    (counts : gmap string Z) :
  dict (filter P (items counts)) = filter P counts.
Proof.
  unfold items. rewrite dict_NoDup.
  - symmetry. apply map_filter_alt.
  - eapply NoDup_fmap_fst.
    + intros k v1 v2 H1 H2. apply list_elem_of_filter in H1 as [_ H1], H2 as [_ H2].
      apply elem_of_map_to_list in H1, H2. congruence.
    + apply list.NoDup_filter, NoDup_map_to_list.
Qed.

(** ** Sums of counts *)

Lemma weight_foldr (P : string -> bool) (counts : gmap string Z) :
  weight P counts =
  foldr (fun so acc => if P so.1 then (so.2 + acc)%Z else acc) 0%Z (map_to_list counts).
Proof.
  unfold weight. rewrite map_fold_foldr.
  apply foldr_ext; [by intros [state n] acc|done|done].
Qed.

Lemma sum_filter (P : string -> bool) (l : list (string * Z)) :
  sum (snd <$> filter (fun so => P so.1 = true) l) =
  foldr (fun so acc => if P so.1 then (so.2 + acc)%Z else acc) 0%Z l.
Proof.
  induction l as [|[state n] l IH]; [done|].
  rewrite filter_cons. cbn [foldr fst snd].
  destruct (P state) eqn:HP.
  - rewrite decide_True by done. rewrite fmap_cons. cbn [sum foldr snd].
    fold (sum (snd <$> filter (fun so => P so.1 = true) l)). by rewrite IH.
  - rewrite decide_False by done. exact IH.
Qed.

Lemma sum_values (counts : gmap string Z) :
  sum (values counts) = weight everything counts.
Proof.
  rewrite weight_foldr. unfold values.
  induction (map_to_list counts) as [|[state n] l IH]; [done|].
  rewrite fmap_cons. cbn [sum foldr snd everything fst].
  fold (sum (snd <$> l)). by rewrite IH.
Qed.

Lemma sum_class (P : string -> bool) (counts : gmap string Z) :
  sum (snd <$> filter (fun so => P so.1 = true) (items counts)) = weight P counts.
Proof. by rewrite sum_filter, weight_foldr. Qed.

Lemma weight_empty (P : string -> bool) : weight P ∅ = 0%Z.
Proof. by rewrite weight_foldr, map_to_list_empty. Qed.

Lemma weight_positive (counts : gmap string Z) :
  map_Forall (fun _ n => (0 < n)%Z) counts ->
  counts <> ∅ ->
  (0 < weight everything counts)%Z.
Proof.
  intros Hpos Hne. rewrite weight_foldr.
  apply map_Forall_to_list in Hpos.
  assert (Hl : map_to_list counts <> []) by by rewrite map_to_list_empty_iff.
  revert Hpos Hl. generalize (map_to_list counts). intros l Hpos.
  assert (Hge : (0 <= foldr (fun so acc => if everything so.1 then so.2 + acc else acc)
                       0 l)%Z).
  { induction Hpos as [|[state n] l Hn _ IH]; cbn in *; lia. }
  destruct Hpos as [|[state n] l Hn Hpos]; [done|]. intros _.
  cbn [foldr everything fst snd] in *.
  assert (0 <= foldr (fun so acc => if everything so.1 then so.2 + acc else acc)
                 0 l)%Z; [|cbn in *; lia].
  clear Hge Hn. induction Hpos as [|[state' n'] l Hn _ IH]; cbn in *; lia.
Qed.

Lemma weight_partition (counts : gmap string Z) :
  (forall state n, counts !! state = Some n ->
                   starts_with "0" state = true \/ starts_with "1" state = true) ->
  (weight (starts_with "0") counts + weight (starts_with "1") counts =
   weight everything counts)%Z.
Proof.
  intros Hcls. rewrite !weight_foldr.
  assert (Hl : Forall (fun so => starts_with "0" so.1 = true \/
                                 starts_with "1" so.1 = true) (map_to_list counts)).
  { apply List.Forall_forall. intros [state n] Hin.
    apply list_elem_of_In, elem_of_map_to_list in Hin. by apply (Hcls state n). }
  induction Hl as [|[state n] l Hso _ IH]; [done|].
  cbn [foldr fst snd everything] in *.
  assert (Hexcl : starts_with "0" state = true -> starts_with "1" state = true -> False).
  { unfold starts_with. rewrite !bool_decide_eq_true. congruence. }
  destruct (starts_with "0" state), (starts_with "1" state);
    first [lia | exfalso; by apply Hexcl | exfalso; naive_solver].
Qed.

(** ** postselect *)

Lemma items_nonempty_key (counts : gmap string Z) (so : string * Z) :
  counts !! EmptyString = None -> so ∈ items counts -> so.1 <> EmptyString.
Proof.
  intros Hnone Hin Hempty. destruct so as [state n]. simpl in Hempty. subst state.
  apply elem_of_map_to_list in Hin. congruence.
Qed.


Lemma post_select_empty_key (counts : gmap string Z) (n : Z) :
  counts !! EmptyString = Some n -> post_select counts = Raise IndexError.
Proof.
  intros Hsome. unfold post_select. apply comprehension_raise.
  - exists (EmptyString, n). split; [by apply elem_of_map_to_list|done].
  - intros [state m] e' _. cbn [fst]. rewrite str_last_get.
    destruct (String.get _ state); cbn [mbind py_bind]; congruence.
Qed.

Lemma retrieve_class_total (postselection : gmap string Z) (binary_class : Z) (a : ascii) :
  postselection !! EmptyString = None ->
  str binary_class = String a EmptyString ->
  retrieve_class postselection binary_class =
  Ret (snd <$> filter (fun so => starts_with a so.1 = true) (items postselection)).
Proof.
  intros Hnone Hstr. unfold retrieve_class.
  rewrite (comprehension_total _ (fun so => starts_with a so.1)); [done|].
  intros so Hin. apply str_first_nonempty; [|done].
  by apply (items_nonempty_key postselection).
Qed.

Lemma kept_lookup (result_counts : gmap string Z) (state : string) (n : Z) :
  kept result_counts !! state = Some n <->
  result_counts !! state = Some n /\ ends_with "0" state = true.
Proof. unfold kept. by rewrite map_lookup_filter_Some. Qed.

Lemma kept_nonempty_keys (result_counts : gmap string Z) :
  kept result_counts !! EmptyString = None.
Proof.
  destruct (kept result_counts !! EmptyString) as [n|] eqn:Hk; [|done].
  apply kept_lookup in Hk as [_ Hk]. done.
Qed.

Section NonEmptyKeys.

Variable result_counts : gmap string Z.
Hypothesis no_empty_key : result_counts !! EmptyString = None.

Lemma post_select_total :
  post_select result_counts =
  Ret (filter (fun so => ends_with "0" so.1 = true) (items result_counts)).
Proof.
  unfold post_select.
  apply (comprehension_total _ (fun so => ends_with "0" so.1)).
  intros so Hin. apply str_last_nonempty.
  by apply (items_nonempty_key result_counts).
Qed.

Lemma postselect_eq :
  postselect result_counts =
  (selection ← truediv "ancilla_post_selection"
                 (weight everything (kept result_counts))
                 (weight everything result_counts);
   class0 ← truediv "prob_class0"
              (weight (starts_with "0") (kept result_counts))
              (weight everything (kept result_counts));
   class1 ← truediv "prob_class1"
              (weight (starts_with "1") (kept result_counts))
              (weight everything (kept result_counts));
   Ret (mkPostselect selection class0 class1)).
Proof.
  unfold postselect.
  rewrite post_select_total. cbn [mbind py_bind].
  rewrite (dict_filter_items (fun so => ends_with "0" so.1 = true)).
  fold (kept result_counts).
  rewrite !sum_values.
  rewrite (retrieve_class_total _ 0 "0") by (apply kept_nonempty_keys || done).
  rewrite (retrieve_class_total _ 1 "1") by (apply kept_nonempty_keys || done).
  destruct (truediv "ancilla_post_selection" _ _); cbn [mbind py_bind]; [|done].
  by rewrite !sum_class.
Qed.

End NonEmptyKeys.

(** ** Weights of dictionaries, by insertion *)

Lemma weight_insert (P : string -> bool) (counts : gmap string Z) (state : string) (n : Z) :
  counts !! state = None ->
  weight P (<[state := n]> counts) =
  if P state then (n + weight P counts)%Z else weight P counts.
Proof.
  intros Hfresh. unfold weight.
  apply (map_fold_insert_L
           (fun state n acc => if P state then (n + acc)%Z else acc)); [|done].
  intros j1 j2 z1 z2 y _ _ _. destruct (P j1), (P j2); lia.
Qed.

Lemma kept_insert (counts : gmap string Z) (state : string) (n : Z) :
  counts !! state = None ->
  kept (<[state := n]> counts) =
  if ends_with "0" state then <[state := n]> (kept counts) else kept counts.
Proof.
  intros Hfresh. unfold kept. destruct (ends_with "0" state) eqn:Hend.
  - by rewrite map_filter_insert_True.
  - rewrite map_filter_insert_not'; [done|by cbn; rewrite Hend|].
    intros y Hy. congruence.
Qed.

Lemma kept_fresh (counts : gmap string Z) (state : string) :
  counts !! state = None -> kept counts !! state = None.
Proof.
  intros Hfresh. destruct (kept counts !! state) as [n|] eqn:Hk; [|done].
  apply kept_lookup in Hk as [Hk _]. congruence.
Qed.

Lemma weight_bounds (P : string -> bool) (counts : gmap string Z) :
  map_Forall (fun _ n => (0 <= n)%Z) counts ->
  (0 <= weight P counts <= weight everything counts)%Z.
Proof.
  induction counts as [|state n counts Hfresh IH] using map_ind; intros Hpos.
  - rewrite !weight_empty. lia.
  - apply map_Forall_insert in Hpos as [Hn Hpos]; [|done].
    specialize (IH Hpos). rewrite !weight_insert by done.
    cbn [everything]. destruct (P state); lia.
Qed.

Lemma weight_kept (P : string -> bool) (counts : gmap string Z) :
  weight P (kept counts) = weight (fun state => P state && ends_with "0" state) counts.
Proof.
  induction counts as [|state n counts Hfresh IH] using map_ind.
  - unfold kept. by rewrite map_filter_empty, !weight_empty.
  - rewrite kept_insert, (weight_insert (fun state => P state && _)) by done.
    destruct (ends_with "0" state).
    + rewrite weight_insert by by apply kept_fresh.
      rewrite IH. by rewrite andb_true_r.
    + rewrite IH. by rewrite andb_false_r.
Qed.



Lemma kept_kept (counts : gmap string Z) : kept (kept counts) = kept counts.
Proof.
  apply map_eq. intros state.
  destruct (kept counts !! state) as [n|] eqn:Hk.
  - apply kept_lookup. split; [done|]. by apply kept_lookup in Hk as [_ ?].
  - by apply kept_fresh.
Qed.

(** ** Quotients out of the binary64 range *)

Lemma float_max_bound_gt_1 : (1 < float_max_bound)%Z.
Proof. by vm_compute. Qed.

Lemma no_overflow_le (a b : Z) :
  b <> 0%Z -> (Z.abs a <= Z.abs b)%Z -> overflows a b = false.
Proof.
  intros Hb Hab. unfold overflows. apply Z.leb_gt.
  pose proof float_max_bound_gt_1 as Hbound. revert Hbound.
  generalize float_max_bound. intros bound Hbound. nia.
Qed.

Lemma no_overflow_nonneg (a b : Z) :
  b <> 0%Z -> (0 <= a <= b)%Z -> overflows a b = false.
Proof. intros Hb Hab. apply no_overflow_le; [done|lia]. Qed.


Lemma truediv_returns (target : string) (a b : Z) :
  b <> 0%Z -> overflows a b = false ->
  truediv target a b = Ret (Qc_of_Z a / Qc_of_Z b)%Qc.
Proof.
  intros Hb Ho. unfold truediv. rewrite decide_False by done. by rewrite Ho.
Qed.

Lemma kept_bounds (result_counts : gmap string Z) :
  map_Forall (fun _ n => (0 <= n)%Z) result_counts ->
  map_Forall (fun _ n => (0 <= n)%Z) (kept result_counts) /\
  (0 <= weight everything (kept result_counts) <= weight everything result_counts)%Z.
Proof.
  intros Hpos. split.
  - intros state n Hin. apply kept_lookup in Hin as [Hin _]. by apply (Hpos state n).
  - rewrite (weight_kept everything). by apply weight_bounds.
Qed.

Lemma postselect_empty_key (result_counts : gmap string Z) (n : Z) :
  result_counts !! EmptyString = Some n -> postselect result_counts = Raise IndexError.
Proof.
  intros Hsome. unfold postselect. by rewrite (post_select_empty_key _ n).
Qed.

Lemma postselect_returns_iff (result_counts : gmap string Z) (r : postselect_result) :
  postselect result_counts = Ret r <->
  result_counts !! EmptyString = None /\
  weight everything result_counts <> 0%Z /\
  overflows (weight everything (kept result_counts))
            (weight everything result_counts) = false /\
  weight everything (kept result_counts) <> 0%Z /\
  overflows (weight (starts_with "0") (kept result_counts))
            (weight everything (kept result_counts)) = false /\
  overflows (weight (starts_with "1") (kept result_counts))
            (weight everything (kept result_counts)) = false /\
  r = mkPostselect
        (Qc_of_Z (weight everything (kept result_counts))
         / Qc_of_Z (weight everything result_counts))%Qc
        (class_probability "0" result_counts)
        (class_probability "1" result_counts).
Proof.
  destruct (result_counts !! EmptyString) as [n|] eqn:Hkey.
  { rewrite (postselect_empty_key _ n Hkey). split; [done|by intros [? _]]. }
  rewrite postselect_eq by done. unfold truediv, class_probability.
  destruct (decide (weight everything result_counts = 0%Z)) as [Htot|Htot];
    cbn [mbind py_bind]; [split; [done|by intros (_ & ? & _)]|].
  destruct (overflows (weight everything (kept result_counts)) _) eqn:Hsel;
    cbn [mbind py_bind]; [split; [done|by intros (_ & _ & ? & _)]|].
  destruct (decide (weight everything (kept result_counts) = 0%Z)) as [Hkept|Hkept];
    cbn [mbind py_bind]; [split; [done|by intros (_ & _ & _ & ? & _)]|].
  destruct (overflows (weight (starts_with "0") (kept result_counts)) _) eqn:H0;
    cbn [mbind py_bind]; [split; [done|by intros (_ & _ & _ & _ & ? & _)]|].
  destruct (overflows (weight (starts_with "1") (kept result_counts)) _) eqn:H1;
    cbn [mbind py_bind]; [split; [done|by intros (_ & _ & _ & _ & _ & ? & _)]|].
  split.
  - intros [= <-]. done.
  - intros (_ & _ & _ & _ & _ & _ & ->). done.
Qed.

Lemma postselect_returns_inv (result_counts : gmap string Z) (r : postselect_result) :
  postselect result_counts = Ret r ->
  result_counts !! EmptyString = None /\
  weight everything result_counts <> 0%Z /\
  weight everything (kept result_counts) <> 0%Z /\
  r = mkPostselect
        (Qc_of_Z (weight everything (kept result_counts))
         / Qc_of_Z (weight everything result_counts))%Qc
        (class_probability "0" result_counts)
        (class_probability "1" result_counts).
Proof.
  intros Hret. apply postselect_returns_iff in Hret.
  destruct Hret as (Hkey & Htot & _ & Hkept & _ & _ & Hr). done.
Qed.

Lemma postselect_returns_nonneg (result_counts : gmap string Z) (r : postselect_result) :
  map_Forall (fun _ n => (0 <= n)%Z) result_counts ->
  postselect result_counts = Ret r <->
  result_counts !! EmptyString = None /\
  weight everything result_counts <> 0%Z /\
  weight everything (kept result_counts) <> 0%Z /\
  r = mkPostselect
        (Qc_of_Z (weight everything (kept result_counts))
         / Qc_of_Z (weight everything result_counts))%Qc
        (class_probability "0" result_counts)
        (class_probability "1" result_counts).
Proof.
  intros Hpos. split; [apply postselect_returns_inv|].
  intros (Hkey & Htot & Hkept & ->). apply postselect_returns_iff.
  destruct (kept_bounds _ Hpos) as [Hkpos Hk].
  split; [done|]. split; [done|].
  split; [by apply no_overflow_nonneg|]. split; [done|].
  split; [apply no_overflow_nonneg; [done|by apply weight_bounds]|].
  split; [apply no_overflow_nonneg; [done|by apply weight_bounds]|done].
Qed.

Lemma postselect_no_samples :
  postselect ∅ = Raise (ZeroDivisionError "ancilla_post_selection").
Proof.
  rewrite postselect_eq by apply lookup_empty.
  unfold truediv. by rewrite weight_empty, decide_True.
Qed.

Lemma postselect_nothing_kept (result_counts : gmap string Z) :
  result_counts !! EmptyString = None ->
  weight everything result_counts <> 0%Z ->
  kept result_counts = ∅ ->
  postselect result_counts = Raise (ZeroDivisionError "prob_class0").
Proof.
  intros Hkey Htot Hkept. rewrite postselect_eq by done.
  rewrite Hkept, !weight_empty.
  rewrite (truediv_returns "ancilla_post_selection");
    [|done|apply no_overflow_le; [done|lia]].
  cbn [mbind py_bind]. unfold truediv. by rewrite decide_True.
Qed.

(** C3: [postselect] keeps exactly the entries whose state string ends in
    ['0'], and its class probabilities are the kept counts of the states
    starting with ['0'] (resp. ['1']) divided by the total of the kept
    counts. *)
Theorem postselect_is_post_selection
    (result_counts : gmap string Z) (r : postselect_result) :
  postselect result_counts = Ret r ->
  (exists selected,
      post_select result_counts = Ret selected /\
      dict selected = kept result_counts) /\
  (forall state n,
      kept result_counts !! state = Some n <->
      result_counts !! state = Some n /\ ends_with "0" state = true) /\
  ancilla_post_selection r =
    (Qc_of_Z (weight everything (kept result_counts))
     / Qc_of_Z (weight everything result_counts))%Qc /\
  prob_class0 r = class_probability "0" result_counts /\
  prob_class1 r = class_probability "1" result_counts.
Proof.
  intros Hret. apply postselect_returns_inv in Hret as (Hkey & _ & _ & ->).
  split; [|split; [apply kept_lookup|done]].
  eexists. split; [by apply post_select_total|].
  apply (dict_filter_items (fun so => ends_with "0" so.1 = true)).
Qed.

Lemma postselect_is_post_selection_witness :
  prob_class0
    (mkPostselect (Qc_of_Z 4 / Qc_of_Z 8)%Qc (Qc_of_Z 3 / Qc_of_Z 4)%Qc
                  (Qc_of_Z 1 / Qc_of_Z 4)%Qc) =
  class_probability "0" {[ "0000" := 3%Z; "1000" := 1%Z; "0001" := 4%Z ]}.
Proof.
  refine (proj1 (proj2 (proj2 (proj2
    (postselect_is_post_selection
       {[ "0000" := 3%Z; "1000" := 1%Z; "0001" := 4%Z ]} _ _))))).
  vm_compute. reflexivity.
Defined.

Lemma Qc_fractions_sum (a b k : Z) :
  k <> 0%Z -> (a + b = k)%Z ->
  (Qc_of_Z a / Qc_of_Z k + Qc_of_Z b / Qc_of_Z k = 1)%Qc.
Proof.
  intros Hk Hsum. unfold Qcdiv.
  rewrite <- Qcmult_plus_distr_l, <- Z2Qc_inj_add, Hsum.
  apply Qcmult_inv_r. rewrite <- Z2Qc_inj_0. intros Heq. by apply Z2Qc_inj in Heq.
Qed.

(** C8: when every kept state string begins with ['0'] or ['1'], the two
    class probabilities computed by [postselect] add up to 1, the counts of
    the two classes partitioning the postselected samples. *)
Theorem class_probabilities_sum_to_1
    (result_counts : gmap string Z) (r : postselect_result) :
  (forall state n,
      kept result_counts !! state = Some n ->
      starts_with "0" state = true \/ starts_with "1" state = true) ->
  postselect result_counts = Ret r ->
  (prob_class0 r + prob_class1 r = 1)%Qc /\
  (weight (starts_with "0") (kept result_counts)
   + weight (starts_with "1") (kept result_counts) =
   weight everything (kept result_counts))%Z.
Proof.
  intros Hcls Hret. apply postselect_returns_inv in Hret as (_ & _ & Hkept & ->).
  pose proof (weight_partition _ Hcls) as Hpart.
  split; [|exact Hpart].
  cbn [prob_class0 prob_class1]. unfold class_probability.
  by apply Qc_fractions_sum.
Qed.

Lemma class_probabilities_sum_to_1_witness :
  (Qc_of_Z 3 / Qc_of_Z 4 + Qc_of_Z 1 / Qc_of_Z 4 = 1)%Qc.
Proof.
  refine (proj1
    (class_probabilities_sum_to_1
       {[ "0000" := 3%Z; "1000" := 1%Z; "0001" := 4%Z ]}
       (mkPostselect (Qc_of_Z 4 / Qc_of_Z 8)%Qc (Qc_of_Z 3 / Qc_of_Z 4)%Qc
                     (Qc_of_Z 1 / Qc_of_Z 4)%Qc) _ _)).
  - intros state n Hkept. apply kept_lookup in Hkept as [Hin _].
    apply lookup_insert_Some in Hin as [[<- _]|[_ Hin]]; [by left|].
    apply lookup_insert_Some in Hin as [[<- _]|[_ Hin]]; [by right|].
    apply lookup_singleton_Some in Hin as [<- _]. by left.
  - vm_compute. reflexivity.
Defined.

Lemma kept_nonempty (result_counts : gmap string Z) :
  kept result_counts <> ∅ <->
  exists state n, result_counts !! state = Some n /\ ends_with "0" state = true.
Proof.
  split.
  - intros Hne. apply map_choose in Hne as (state & n & Hk).
    exists state, n. by apply kept_lookup.
  - intros (state & n & Hin & Hend) Hempty.
    assert (Hk : kept result_counts !! state = Some n) by by apply kept_lookup.
    by rewrite Hempty, lookup_empty in Hk.
Qed.

Lemma measured_counts_positive (result_counts : gmap string Z) :
  measured_counts result_counts ->
  map_Forall (fun _ n => (0 < n)%Z) result_counts /\
  map_Forall (fun _ n => (0 < n)%Z) (kept result_counts) /\
  result_counts !! EmptyString = None.
Proof.
  intros Hm. split; [|split].
  - intros state n Hin. by apply (Hm state n).
  - intros state n Hin. apply kept_lookup in Hin as [Hin _]. by apply (Hm state n).
  - destruct (result_counts !! EmptyString) as [n|] eqn:Hkey; [|done].
    by destruct (Hm _ _ Hkey).
Qed.

(** C9, as stated, fails on a dictionary with a zero count: an outcome with
    ancilla bit ['0'] is present, yet [postselect] raises. *)
Lemma postselect_completes_counterexample :
  ~ (forall result_counts : gmap string Z,
        (exists r, postselect result_counts = Ret r) <->
        (exists state n,
            result_counts !! state = Some n /\ ends_with "0" state = true)).
Proof.
  intros Hclaim.
  destruct (proj2 (Hclaim {[ "0000" := 0%Z ]})) as [r Hr].
  - exists "0000", 0%Z. split; [apply lookup_singleton_eq|reflexivity].
  - vm_compute in Hr. discriminate Hr.
Qed.

(** C9, amended: on counts as a measurement returns them (non-empty state
    strings, positive counts) [postselect] raises [ZeroDivisionError] at
    [ancilla_post_selection] for the empty dictionary and at [prob_class0]
    when no state string ends in ['0'], and returns exactly when some state
    string ends in ['0']. *)
Theorem postselect_partial (result_counts : gmap string Z) :
  measured_counts result_counts ->
  postselect ∅ = Raise (ZeroDivisionError "ancilla_post_selection") /\
  (result_counts <> ∅ ->
   (forall state n, result_counts !! state = Some n -> ends_with "0" state = false) ->
   postselect result_counts = Raise (ZeroDivisionError "prob_class0")) /\
  ((exists r, postselect result_counts = Ret r) <->
   (exists state n,
       result_counts !! state = Some n /\ ends_with "0" state = true)).
Proof.
  intros Hm. destruct (measured_counts_positive _ Hm) as (Hpos & Hkpos & Hkey).
  split; [|split].
  - apply postselect_no_samples.
  - intros Hne Hnone.
    assert (Hkept : kept result_counts = ∅).
    { destruct (decide (kept result_counts = ∅)) as [|Hk]; [done|].
      apply kept_nonempty in Hk as (state & n & Hin & Hend).
      rewrite (Hnone state n Hin) in Hend. done. }
    pose proof (weight_positive _ Hpos Hne) as Htot.
    apply postselect_nothing_kept; [done|lia|done].
  - rewrite <- kept_nonempty. split.
    + intros [r Hr]. apply postselect_returns_inv in Hr as (_ & _ & Hk & _).
      intros Hempty. by rewrite Hempty, weight_empty in Hk.
    + intros Hk. eexists. apply postselect_returns_nonneg.
      { intros state n Hin. pose proof (Hpos state n Hin) as Hn. simpl in Hn. lia. }
      split; [done|]. split; [|split; [|reflexivity]].
      * assert (result_counts <> ∅).
        { intros ->. apply Hk. apply map_filter_empty. }
        pose proof (weight_positive _ Hpos ltac:(done)). lia.
      * pose proof (weight_positive _ Hkpos Hk). lia.
Qed.

Lemma postselect_partial_witness :
  (exists r, postselect {[ "0000" := 3%Z; "1000" := 1%Z; "0001" := 4%Z ]} = Ret r) <->
  (exists state n,
      ({[ "0000" := 3%Z; "1000" := 1%Z; "0001" := 4%Z ]} : gmap string Z) !! state
        = Some n /\ ends_with "0" state = true).
Proof.
  refine (proj2 (proj2
    (postselect_partial {[ "0000" := 3%Z; "1000" := 1%Z; "0001" := 4%Z ]} _))).
  intros state n Hin.
  apply lookup_insert_Some in Hin as [[<- <-]|[_ Hin]]; [split; [done|lia]|].
  apply lookup_insert_Some in Hin as [[<- <-]|[_ Hin]]; [split; [done|lia]|].
  apply lookup_singleton_Some in Hin as [<- <-]. split; [done|lia].
Defined.

(** ** Sparse evaluation of circuits *)

Lemma index_split (a b k : nat) :
  a = b <-> Nat.testbit a k = Nat.testbit b k /\ Nat.clearbit a k = Nat.clearbit b k.
Proof.
  split; [by intros ->|]. intros [Hk Hc].
  apply Nat.bits_inj. intros j. destruct (decide (k = j)) as [<-|Hne]; [done|].
  by rewrite <- (testbit_clearbit_other a k j), <- (testbit_clearbit_other b k j), Hc.
Qed.

Lemma eqb_split (a b k : nat) :
  (a =? b)%nat =
  Bool.eqb (Nat.testbit a k) (Nat.testbit b k)
  && (Nat.clearbit a k =? Nat.clearbit b k)%nat.
Proof.
  apply eq_true_iff_eq.
  rewrite andb_true_iff, !Nat.eqb_eq, Bool.eqb_true_iff. apply index_split.
Qed.

Lemma apply1_ket (U : mat2) (k x y : nat) :
  apply1 U k (ket x) y =
  Cadd (Cmul (U false (Nat.testbit x k)) (ket (Nat.clearbit x k) y))
       (Cmul (U true (Nat.testbit x k)) (ket (Nat.setbit x k) y)).
Proof.
  unfold apply1, ket.
  rewrite (eqb_split (Nat.clearbit y k) x k), (eqb_split (Nat.setbit y k) x k),
    (eqb_split y (Nat.clearbit x k) k), (eqb_split y (Nat.setbit x k) k).
  autorewrite with qubit_bits.
  destruct (Nat.testbit x k), (Nat.testbit y k),
    (Nat.clearbit y k =? Nat.clearbit x k)%nat; cbn [Bool.eqb andb];
    generalize (U false false) (U false true) (U true false) (U true true);
    intros; lca.
Qed.

Lemma lin_app (ts us : list term) (y : nat) :
  lin (ts ++ us) y = Cadd (lin ts y) (lin us y).
Proof.
  induction ts as [|t ts IH]; cbn [app lin].
  - generalize (lin us y). intros. lca.
  - rewrite IH. generalize (Cmul t.1 (ket t.2 y)) (lin ts y) (lin us y). intros. lca.
Qed.

Lemma lin_matrix_term (U : mat2) (k : nat) (t : term) (y : nat) :
  lin (matrix_term U k t) y = Cmul t.1 (apply1 U k (ket t.2) y).
Proof.
  rewrite apply1_ket. unfold matrix_term. cbn [lin fst snd].
  generalize (U false (Nat.testbit t.2 k)) (U true (Nat.testbit t.2 k))
    (ket (Nat.clearbit t.2 k) y) (ket (Nat.setbit t.2 k) y) (t.1).
  intros. lca.
Qed.

Lemma lin_flip_term (k : nat) (t : term) (y : nat) :
  lin (flip_term k t) y = lin (matrix_term Xm k t) y.
Proof.
  unfold flip_term, matrix_term, flip, Xm. cbn [lin fst snd].
  destruct (Nat.testbit t.2 k); cbn [xorb];
    generalize (ket (Nat.clearbit t.2 k) y) (ket (Nat.setbit t.2 k) y) (t.1);
    intros; lca.
Qed.

Lemma lin_flat_map_ext (F G : term -> list term) (ts : list term) (y : nat) :
  (forall t, lin (F t) y = lin (G t) y) ->
  lin (flat_map F ts) y = lin (flat_map G ts) y.
Proof.
  intros Hext. induction ts as [|t ts IH]; [done|].
  cbn [flat_map]. by rewrite !lin_app, Hext, IH.
Qed.

Lemma apply1_cons (U : mat2) (k : nat) (t : term) (ts : list term) (y : nat) :
  apply1 U k (lin (t :: ts)) y =
  Cadd (Cmul t.1 (apply1 U k (ket t.2) y)) (apply1 U k (lin ts) y).
Proof.
  unfold apply1. cbn [lin].
  generalize (U (Nat.testbit y k) false) (U (Nat.testbit y k) true)
    (ket t.2 (Nat.clearbit y k)) (ket t.2 (Nat.setbit y k))
    (lin ts (Nat.clearbit y k)) (lin ts (Nat.setbit y k)) (t.1).
  intros. lca.
Qed.

Lemma apply1_lin (U : mat2) (k : nat) (ts : list term) (y : nat) :
  apply1 U k (lin ts) y = lin (flat_map (matrix_term U k) ts) y.
Proof.
  induction ts as [|t ts IH].
  - unfold apply1. cbn [lin flat_map].
    generalize (U (Nat.testbit y k) false) (U (Nat.testbit y k) true). intros. lca.
  - rewrite apply1_cons. cbn [flat_map].
    by rewrite lin_app, lin_matrix_term, IH.
Qed.

Lemma ket_controls (ctls : list nat) (x y : nat) :
  forallb (Nat.testbit x) ctls <> forallb (Nat.testbit y) ctls ->
  ket x y = RtoC 0.
Proof.
  intros Hctl. unfold ket. destruct (Nat.eqb_spec y x) as [->|]; done.
Qed.

Lemma controlled_lin (U : mat2) (k : nat) (ctls : list nat) (ts : list term) (y : nat) :
  k ∉ ctls ->
  controlled ctls (apply1 U k) (lin ts) y =
  lin (flat_map (on_controls ctls (matrix_term U k)) ts) y.
Proof.
  intros Hk. unfold controlled. induction ts as [|t ts IH].
  - cbn [flat_map lin]. destruct (forallb _ ctls); [|done].
    unfold apply1. cbn [lin].
    generalize (U (Nat.testbit y k) false) (U (Nat.testbit y k) true). intros. lca.
  - cbn [flat_map]. rewrite lin_app, <- IH. clear IH.
    unfold on_controls.
    destruct (forallb (Nat.testbit y) ctls) eqn:Hy,
             (forallb (Nat.testbit t.2) ctls) eqn:Ht.
    + by rewrite apply1_cons, lin_matrix_term.
    + rewrite apply1_cons, apply1_ket. cbn [lin].
      rewrite (ket_controls ctls t.2 y), (ket_controls ctls (Nat.clearbit t.2 k) y),
        (ket_controls ctls (Nat.setbit t.2 k) y)
        by (rewrite ?controls_clearbit, ?controls_setbit by done; congruence).
      generalize (U false (Nat.testbit t.2 k)) (U true (Nat.testbit t.2 k))
        (apply1 U k (lin ts) y) (t.1).
      intros. lca.
    + rewrite lin_matrix_term, apply1_ket. cbn [lin].
      rewrite (ket_controls ctls t.2 y), (ket_controls ctls (Nat.clearbit t.2 k) y),
        (ket_controls ctls (Nat.setbit t.2 k) y)
        by (rewrite ?controls_clearbit, ?controls_setbit by done; congruence).
      generalize (U false (Nat.testbit t.2 k)) (U true (Nat.testbit t.2 k))
        (lin ts y) (t.1).
      intros. lca.
    + cbn [lin]. generalize (Cmul t.1 (ket t.2 y)) (lin ts y). intros. lca.
Qed.

Lemma controlled_flip_lin (k : nat) (ctls : list nat) (ts : list term) (y : nat) :
  k ∉ ctls ->
  controlled ctls (apply1 Xm k) (lin ts) y =
  lin (flat_map (on_controls ctls (flip_term k)) ts) y.
Proof.
  intros Hk. rewrite controlled_lin by done.
  apply lin_flat_map_ext. intros t. unfold on_controls.
  destruct (forallb _ ctls); [|done]. symmetry. apply lin_flip_term.
Qed.

Lemma flip_lin (k : nat) (ts : list term) (y : nat) :
  apply1 Xm k (lin ts) y = lin (flat_map (flip_term k) ts) y.
Proof.
  rewrite apply1_lin. apply lin_flat_map_ext. intros t. symmetry. apply lin_flip_term.
Qed.

Lemma fresh_target (tgt : nat) (ctls : list nat) :
  existsb (Nat.eqb tgt) ctls = false -> tgt ∉ ctls.
Proof.
  intros Hex Hin. apply list_elem_of_In in Hin.
  assert (existsb (Nat.eqb tgt) ctls = true); [|congruence].
  apply existsb_exists. exists tgt. split; [done|apply Nat.eqb_refl].
Qed.

Lemma step_sound (i : instr) (F : list term -> list term) :
  step i = Some F ->
  exists U, denote i = Some U /\ forall ts y, U (lin ts) y = lin (F ts) y.
Proof.
  destruct i as [q|q|theta q|theta phi lam ctl tgt|ctl tgt|ctl1 ctl2 tgt|qs|q cl];
    cbn [step denote].
  - intros [= <-]. eexists. split; [done|]. apply apply1_lin.
  - intros [= <-]. eexists. split; [done|]. apply flip_lin.
  - destruct (angle theta) as [t|]; cbn [mbind option_bind]; [|done].
    intros [= <-]. eexists. split; [done|]. apply apply1_lin.
  - destruct (angle theta) as [t|]; cbn [mbind option_bind]; [|done].
    destruct (angle phi) as [p|]; cbn [mbind option_bind]; [|done].
    destruct (angle lam) as [l|]; cbn [mbind option_bind]; [|done].
    destruct (existsb _ _) eqn:Hfresh; [done|]. apply fresh_target in Hfresh.
    intros [= <-]. eexists. split; [done|]. intros ts y. by apply controlled_lin.
  - destruct (existsb _ _) eqn:Hfresh; [done|]. apply fresh_target in Hfresh.
    intros [= <-]. eexists. split; [done|]. intros ts y. by apply controlled_flip_lin.
  - destruct (existsb _ _) eqn:Hfresh; [done|]. apply fresh_target in Hfresh.
    intros [= <-]. eexists. split; [done|]. intros ts y. by apply controlled_flip_lin.
  - intros [= <-]. eexists. split; [done|]. done.
  - done.
Qed.

Lemma denote_ext (i : instr) (U : state -> state) (phi psi : state) (y : nat) :
  denote i = Some U -> (forall z, phi z = psi z) -> U phi y = U psi y.
Proof.
  intros Hden Heq.
  destruct i as [q|q|theta q|theta phi' lam ctl tgt|ctl tgt|ctl1 ctl2 tgt|qs|q cl];
    cbn [denote] in Hden;
    repeat match type of Hden with
      | context [angle ?t] => destruct (angle t); cbn [mbind option_bind] in Hden
      end;
    try discriminate Hden; injection Hden as <-;
    unfold controlled; rewrite ?Heq;
    repeat match goal with |- context [if ?b then _ else _] => destruct b end;
    try done; by apply apply1_ext.
Qed.

Lemma sparse_run_sound (l : list instr) (ts ts' : list term) (psi : state) :
  (forall y, psi y = lin ts y) ->
  sparse_run l ts = Some ts' ->
  exists psi', run l psi = Some psi' /\ forall y, psi' y = lin ts' y.
Proof.
  revert ts psi. induction l as [|i l IH]; intros ts psi Hpsi; cbn [sparse_run run].
  - intros [= <-]. by exists psi.
  - destruct (step i) as [F|] eqn:Hstep; cbn [mbind option_bind]; [|done].
    destruct (step_sound i F Hstep) as (U & Hden & HU).
    rewrite Hden. cbn [mbind option_bind].
    apply IH. intros y. rewrite <- HU. by apply (denote_ext i).
Qed.

Lemma lin_coeff (ts : list term) (y : nat) : lin ts y = coeff ts y.
Proof.
  induction ts as [|t ts IH]; [done|].
  cbn [lin coeff]. rewrite IH. unfold ket. rewrite (Nat.eqb_sym y t.2).
  destruct (t.2 =? y)%nat; generalize (coeff ts y) (t.1); intros; lca.
Qed.

Lemma ket_lin (x y : nat) : ket x y = lin [(RtoC 1, x)] y.
Proof.
  unfold lin. cbn [fst snd]. generalize (ket x y). intros. lca.
Qed.

Lemma sparse_statevector (circuit : QuantumCircuit) (ts : list term) :
  sparse_run (data circuit) [(RtoC 1, 0)] = Some ts ->
  statevector circuit = Some (coeff ts <$> seq 0 (2 ^ qubits circuit)).
Proof.
  intros Hrun.
  destruct (sparse_run_sound _ _ _ (ket 0) (ket_lin 0) Hrun) as (psi' & Hpsi & Heq).
  unfold statevector. rewrite Hpsi. cbn [mbind option_bind]. f_equal.
  apply list_fmap_ext. intros _ y _. by rewrite Heq, lin_coeff.
Qed.

(** ** The prepared state *)

(** Evaluates [sparse_run] on a concrete circuit, one instruction at a time. *)
Ltac sparse_eval :=
  repeat first
    [ progress cbn [sparse_run step mbind option_bind angle flat_map app
                    matrix_term flip_term on_controls flip fst snd
                    Np.neg lift1]
    | progress (repeat match goal with
        | |- context [existsb ?f ?l] =>
            let v := eval vm_compute in (existsb f l) in change (existsb f l) with v
        end)
    | progress unfold on_controls, flip
    | progress eval_bits ].

Lemma Cexp_i_0 : Cexp_i 0 = RtoC 1.
Proof. unfold Cexp_i, RtoC. by rewrite cos_0, sin_0. Qed.

Lemma inv_sqrt2_sq : (/ sqrt 2 * (/ sqrt 2 * 1) = / 2)%R.
Proof.
  pose proof sqrt2_neq_0 as Hneq.
  assert (Hsq : (sqrt 2 * sqrt 2 = 2)%R) by (apply sqrt_sqrt; lra).
  rewrite <- Hsq at 3. field. exact Hneq.
Qed.

Lemma div_2_sqrt2 (x : R) : (x / (2 * sqrt 2) = x * (/ 2 * / sqrt 2))%R.
Proof. unfold Rdiv. by rewrite Rinv_mult. Qed.

Lemma cos_double_half (a : R) :
  cos a = (cos (a / 2) * cos (a / 2) - sin (a / 2) * sin (a / 2))%R.
Proof. rewrite <- cos_2a. f_equal. lra. Qed.

Lemma sin_double_half (a : R) : sin a = (2 * sin (a / 2) * cos (a / 2))%R.
Proof. rewrite <- sin_2a. f_equal. lra. Qed.

(** Closes an identity between real amplitudes of the classifier circuit:
    polynomial in the sines and cosines of [a/2] and [theta/2] and in
    [1/sqrt 2], up to [sin^2 + cos^2 = 1] for [a/2]. *)
Ltac trig_identity theta a :=
  replace (- a / 2)%R with (- (a / 2))%R by lra;
  rewrite ?cos_neg, ?sin_neg, ?(cos_double_half a), ?(sin_double_half a);
  rewrite ?div_2_sqrt2;
  let Hcs := fresh "Hcs" in
  pose proof (sin2_cos2 (a / 2)) as Hcs; unfold Rsqr in Hcs;
  generalize dependent (sin (a / 2)); generalize dependent (cos (a / 2));
  generalize (sin (theta / 2)) (cos (theta / 2)) (/ sqrt 2)%R;
  intros st ct h ca sa Hcs;
  pose proof (f_equal (Rmult ct) Hcs);
  pose proof (f_equal (Rmult st) Hcs);
  pose proof (f_equal (Rmult h) Hcs);
  pose proof (f_equal (Rmult (h * ct)) Hcs);
  pose proof (f_equal (Rmult (h * st)) Hcs);
  nra.

(** Brings a sum of weighted real coefficients to one real number. *)
Ltac real_coeff :=
  cbn [coeff fst snd Nat.eqb];
  unfold Hm, RYm, U3m; cbn [andb]; rewrite ?Cexp_i_0;
  repeat first [rewrite Cmul_RtoC | rewrite Cadd_RtoC];
  rewrite ?inv_sqrt2_sq.

Lemma prepare_state_amplitudes (theta a : R) :
  exists ts,
    sparse_run
      [HGate 0; HGate 1; Barrier [0; 1; 2; 3];
       Cu3Gate (Fin theta) (Fin 0) (Fin 0) 0 2; XGate 0; Barrier [0; 1; 2; 3];
       ToffoliGate 0 1 2; XGate 1; Barrier [0; 1; 2; 3];
       ToffoliGate 0 1 2; RYGate (Np.neg (Fin a)) 2;
       ToffoliGate 0 1 2; RYGate (Fin a) 2; Barrier [0; 1; 2; 3];
       CnotGate 1 3] [(RtoC 1, 0)] = Some ts /\
    coeff ts <$> seq 0 16 =
    (fun y => RtoC (prepared_amplitude theta a y)) <$> seq 0 16.
Proof.
  eexists. split; [sparse_eval; reflexivity|].
  cbn [fmap list_fmap seq].
  repeat (apply (f_equal2 (@cons C))); try reflexivity.
  all: real_coeff; f_equal; unfold prepared_amplitude; eval_bits;
    cbn [Bool.eqb test_vector training_vector].
  all: trig_identity theta a.
Qed.

Lemma prepare_state_finite (angles : list np_float) (theta a : R) (circuit : QuantumCircuit) :
  prepare_state q c angles = Ret circuit ->
  angles !! 0%nat = Some (Fin theta) ->
  angles !! 1%nat = Some (Fin a) ->
  circuit =
    mkCircuit 4 4
      [HGate 0; HGate 1; Barrier [0; 1; 2; 3];
       Cu3Gate (Fin theta) (Fin 0) (Fin 0) 0 2; XGate 0; Barrier [0; 1; 2; 3];
       ToffoliGate 0 1 2; XGate 1; Barrier [0; 1; 2; 3];
       ToffoliGate 0 1 2; RYGate (Np.neg (Fin a)) 2;
       ToffoliGate 0 1 2; RYGate (Fin a) 2; Barrier [0; 1; 2; 3];
       CnotGate 1 3].
Proof.
  intros Hprep H0 H1.
  apply prepare_state_returns in Hprep as (a0 & a1 & _ & H0' & H1' & ->).
  rewrite H0 in H0'. rewrite H1 in H1'.
  injection H0' as <-. injection H1' as <-. reflexivity.
Qed.

Lemma prepare_state_statevector
    (angles : list np_float) (theta a : R) (circuit : QuantumCircuit) :
  prepare_state q c angles = Ret circuit ->
  angles !! 0%nat = Some (Fin theta) ->
  angles !! 1%nat = Some (Fin a) ->
  statevector circuit =
  Some ((fun y => RtoC (prepared_amplitude theta a y)) <$> seq 0 16).
Proof.
  intros Hprep H0 H1.
  rewrite (prepare_state_finite angles theta a circuit Hprep H0 H1).
  destruct (prepare_state_amplitudes theta a) as (ts & Hrun & Hamp).
  erewrite sparse_statevector; [|exact Hrun]. f_equal. exact Hamp.
Qed.

(** X1: the state [prepare_state] builds carries, with weight 1/2 each, the
    test vector on ancilla 0 for both index values and the two training
    vectors on ancilla 1, the class bit equal to the index bit. *)
Theorem prepare_state_encodes
    (angles : list np_float) (theta a : R) (circuit : QuantumCircuit) :
  prepare_state q c angles = Ret circuit ->
  angles !! 0%nat = Some (Fin theta) ->
  angles !! 1%nat = Some (Fin a) ->
  statevector circuit =
  Some ((fun y => RtoC (prepared_amplitude theta a y)) <$> seq 0 16).
Proof. apply prepare_state_statevector. Qed.

Lemma prepare_state_encodes_witness :
  statevector
    (mkCircuit 4 4
       [HGate 0; HGate 1; Barrier [0; 1; 2; 3];
        Cu3Gate (Fin (2 * acos (-0.549))) (Fin 0) (Fin 0) 0 2; XGate 0;
        Barrier [0; 1; 2; 3];
        ToffoliGate 0 1 2; XGate 1; Barrier [0; 1; 2; 3];
        ToffoliGate 0 1 2; RYGate (Np.neg (Fin (acos 0.79))) 2;
        ToffoliGate 0 1 2; RYGate (Fin (acos 0.79)) 2; Barrier [0; 1; 2; 3];
        CnotGate 1 3]) =
  Some ((fun y => RtoC (prepared_amplitude (2 * acos (-0.549)) (acos 0.79) y))
          <$> seq 0 16).
Proof.
  exact (prepare_state_encodes [Fin (2 * acos (-0.549)); Fin (acos 0.79)]
           (2 * acos (-0.549)) (acos 0.79) _ eq_refl eq_refl eq_refl).
Defined.

Lemma labelled_val (theta a : R) (z : nat) (label : string) :
  val !! z = Some label ->
  (2 * prepared_amplitude theta a z)%R = labelled theta a label.
Proof.
  intros Hz.
  do 16 (destruct z as [|z];
         [injection Hz as <-; unfold prepared_amplitude, labelled; eval_bits;
          cbn [Bool.eqb String.eqb Ascii.eqb test_vector training_vector];
          try lra|]).
  discriminate Hz.
Qed.

(** X2: in the cell that prints the prepared state, every coefficient
    [outp[z]] is the component its label [val[z]] points at (x or y, of the
    test vector or of a training vector) in the unit vectors the angles
    encode, [(cos(angles[0]/2), sin(angles[0]/2))], [(0, 1)] and
    [(cos(angles[1]), sin(angles[1]))], and 0 where the label is empty. *)
Theorem printed_coefficients_match_labels
    (angles : list np_float) (theta a : R) (circuit : QuantumCircuit) :
  prepare_state q c angles = Ret circuit ->
  angles !! 0%nat = Some (Fin theta) ->
  angles !! 1%nat = Some (Fin a) ->
  exists coefficients,
    outp circuit = Some coefficients /\
    length coefficients = length val /\
    forall z label,
      val !! z = Some label ->
      coefficients !! z = Some (labelled theta a label).
Proof.
  intros Hprep H0 H1. unfold outp.
  rewrite (prepare_state_statevector angles theta a circuit Hprep H0 H1).
  cbn [mbind option_bind]. eexists. split; [reflexivity|].
  split; [by rewrite !length_fmap, length_seq|].
  intros z label Hz.
  assert (Hlt : (z < 16)%nat) by (apply lookup_lt_Some in Hz; exact Hz).
  rewrite !list_lookup_fmap, lookup_seq_lt by exact Hlt.
  cbn [fmap option_fmap option_map fst RtoC]. f_equal.
  by apply labelled_val.
Qed.

Lemma printed_coefficients_match_labels_witness :
  exists coefficients,
    outp
      (mkCircuit 4 4
         [HGate 0; HGate 1; Barrier [0; 1; 2; 3];
          Cu3Gate (Fin (2 * acos (-0.549))) (Fin 0) (Fin 0) 0 2; XGate 0;
          Barrier [0; 1; 2; 3];
          ToffoliGate 0 1 2; XGate 1; Barrier [0; 1; 2; 3];
          ToffoliGate 0 1 2; RYGate (Np.neg (Fin (acos 0.79))) 2;
          ToffoliGate 0 1 2; RYGate (Fin (acos 0.79)) 2; Barrier [0; 1; 2; 3];
          CnotGate 1 3]) = Some coefficients /\
    length coefficients = length val /\
    forall z label,
      val !! z = Some label ->
      coefficients !! z =
      Some (labelled (2 * acos (-0.549)) (acos 0.79) label).
Proof.
  exact (printed_coefficients_match_labels
           [Fin (2 * acos (-0.549)); Fin (acos 0.79)]
           (2 * acos (-0.549)) (acos 0.79) _ eq_refl eq_refl eq_refl).
Defined.

(** ** Interference and the kernel *)

Lemma interfered_amplitudes (theta a : R) :
  exists ts,
    sparse_run
      [HGate 0; HGate 1; Barrier [0; 1; 2; 3];
       Cu3Gate (Fin theta) (Fin 0) (Fin 0) 0 2; XGate 0; Barrier [0; 1; 2; 3];
       ToffoliGate 0 1 2; XGate 1; Barrier [0; 1; 2; 3];
       ToffoliGate 0 1 2; RYGate (Np.neg (Fin a)) 2;
       ToffoliGate 0 1 2; RYGate (Fin a) 2; Barrier [0; 1; 2; 3];
       CnotGate 1 3; HGate 0; Barrier [0; 1; 2; 3]] [(RtoC 1, 0)] = Some ts /\
    coeff ts <$> seq 0 16 =
    (fun y => RtoC (interfered_amplitude theta a y)) <$> seq 0 16.
Proof.
  eexists. split; [sparse_eval; reflexivity|].
  cbn [fmap list_fmap seq].
  repeat (apply (f_equal2 (@cons C))); try reflexivity.
  all: real_coeff; f_equal; unfold interfered_amplitude; eval_bits;
    cbn [Bool.eqb test_vector training_vector].
  all: trig_identity theta a.
Qed.

Lemma interfered_circuit
    (angles angles' : list np_float) (theta a : R) (circuit circuit' : QuantumCircuit) :
  prepare_state q c angles = Ret circuit ->
  angles !! 0%nat = Some (Fin theta) ->
  angles !! 1%nat = Some (Fin a) ->
  interfere_data_and_test_instances circuit q c angles' = Ret circuit' ->
  circuit' =
    mkCircuit 4 4
      [HGate 0; HGate 1; Barrier [0; 1; 2; 3];
       Cu3Gate (Fin theta) (Fin 0) (Fin 0) 0 2; XGate 0; Barrier [0; 1; 2; 3];
       ToffoliGate 0 1 2; XGate 1; Barrier [0; 1; 2; 3];
       ToffoliGate 0 1 2; RYGate (Np.neg (Fin a)) 2;
       ToffoliGate 0 1 2; RYGate (Fin a) 2; Barrier [0; 1; 2; 3];
       CnotGate 1 3; HGate 0; Barrier [0; 1; 2; 3];
       Measure 0 0; Measure 1 1; Measure 2 2; Measure 3 3].
Proof.
  intros Hprep H0 H1 Hint.
  rewrite (prepare_state_finite angles theta a circuit Hprep H0 H1) in Hint.
  by injection Hint as <-.
Qed.

Lemma Cnorm2_RtoC (r : R) : Cnorm2 (RtoC r) = (r ^ 2)%R.
Proof. unfold Cnorm2, RtoC. simpl. ring. Qed.

Lemma born_sum_all_measured (theta a : R) (psi : state) (f : nat -> R) (y0 : nat) :
  psi <$> seq 0 16 = (fun y => RtoC (f y)) <$> seq 0 16 ->
  (y0 < 16)%nat ->
  foldr Rplus 0%R
    ((fun y =>
        if String.eqb
             (outcome_key
                (mkCircuit 4 4
                   [HGate 0; HGate 1; Barrier [0; 1; 2; 3];
                    Cu3Gate (Fin theta) (Fin 0) (Fin 0) 0 2; XGate 0;
                    Barrier [0; 1; 2; 3];
                    ToffoliGate 0 1 2; XGate 1; Barrier [0; 1; 2; 3];
                    ToffoliGate 0 1 2; RYGate (Np.neg (Fin a)) 2;
                    ToffoliGate 0 1 2; RYGate (Fin a) 2; Barrier [0; 1; 2; 3];
                    CnotGate 1 3; HGate 0; Barrier [0; 1; 2; 3];
                    Measure 0 0; Measure 1 1; Measure 2 2; Measure 3 3]) y)
             (bitstring 4 y0)
        then Cnorm2 (psi y) else 0%R) <$> seq 0 16) =
  (f y0 ^ 2)%R.
Proof.
  intros Hamp Hy0. cbn [fmap list_fmap seq] in Hamp.
  injection Hamp as H0 H1 H2 H3 H4 H5 H6 H7 H8 H9 H10 H11 H12 H13 H14 H15.
  cbn [fmap list_fmap seq foldr].
  rewrite H0, H1, H2, H3, H4, H5, H6, H7, H8, H9, H10, H11, H12, H13, H14, H15.
  rewrite !Cnorm2_RtoC.
  do 16 (destruct y0 as [|y0];
         [repeat match goal with
            | |- context [String.eqb ?s ?t] =>
                let v := eval vm_compute in (String.eqb s t) in
                change (String.eqb s t) with v
            end; cbv beta iota; ring|]).
  lia.
Qed.

Lemma classifier_outcome_prob (theta a : R) (y : nat) :
  (y < 16)%nat ->
  outcome_prob
    (mkCircuit 4 4
       [HGate 0; HGate 1; Barrier [0; 1; 2; 3];
        Cu3Gate (Fin theta) (Fin 0) (Fin 0) 0 2; XGate 0; Barrier [0; 1; 2; 3];
        ToffoliGate 0 1 2; XGate 1; Barrier [0; 1; 2; 3];
        ToffoliGate 0 1 2; RYGate (Np.neg (Fin a)) 2;
        ToffoliGate 0 1 2; RYGate (Fin a) 2; Barrier [0; 1; 2; 3];
        CnotGate 1 3; HGate 0; Barrier [0; 1; 2; 3];
        Measure 0 0; Measure 1 1; Measure 2 2; Measure 3 3])
    (bitstring 4 y) =
  Some (interfered_amplitude theta a y ^ 2)%R.
Proof.
  intros Hy.
  destruct (interfered_amplitudes theta a) as (ts & Hrun & Hamp).
  destruct (sparse_run_sound _ _ _ (ket 0) (ket_lin 0) Hrun) as (psi' & Hpsi & Heq).
  unfold outcome_prob.
  change (gates _) with
    [HGate 0; HGate 1; Barrier [0; 1; 2; 3];
     Cu3Gate (Fin theta) (Fin 0) (Fin 0) 0 2; XGate 0; Barrier [0; 1; 2; 3];
     ToffoliGate 0 1 2; XGate 1; Barrier [0; 1; 2; 3];
     ToffoliGate 0 1 2; RYGate (Np.neg (Fin a)) 2;
     ToffoliGate 0 1 2; RYGate (Fin a) 2; Barrier [0; 1; 2; 3];
     CnotGate 1 3; HGate 0; Barrier [0; 1; 2; 3]].
  rewrite Hpsi. cbn [mbind option_bind qubits]. f_equal.
  change (2 ^ 4)%nat with 16%nat.
  apply born_sum_all_measured; [|exact Hy].
  rewrite <- Hamp. apply list_fmap_ext. intros _ z _. by rewrite Heq, lin_coeff.
Qed.

(** X3: after [prepare_state] and [interfere_data_and_test_instances] the
    measurements are the last instructions, and the outcome with bits
    [c d i a] has the probability of the interfered state: an eighth of
    the squared sum (ancilla 0) or difference (ancilla 1) of the test and
    training vector components where class and index bit agree, and 0
    elsewhere. *)
Theorem classifier_outcome_probabilities
    (angles angles' : list np_float) (theta a : R) (circuit circuit' : QuantumCircuit) :
  prepare_state q c angles = Ret circuit ->
  angles !! 0%nat = Some (Fin theta) ->
  angles !! 1%nat = Some (Fin a) ->
  interfere_data_and_test_instances circuit q c angles' = Ret circuit' ->
  terminal_measurements circuit' /\
  forall y, (y < 16)%nat ->
    outcome_prob circuit' (bitstring 4 y) =
    Some (interfered_amplitude theta a y ^ 2)%R.
Proof.
  intros Hprep H0 H1 Hint.
  rewrite (interfered_circuit _ _ _ _ _ _ Hprep H0 H1 Hint).
  split; [reflexivity|]. apply classifier_outcome_prob.
Qed.

Lemma classifier_outcome_probabilities_witness :
  outcome_prob
    (mkCircuit 4 4
       [HGate 0; HGate 1; Barrier [0; 1; 2; 3];
        Cu3Gate (Fin (2 * acos (-0.549))) (Fin 0) (Fin 0) 0 2; XGate 0;
        Barrier [0; 1; 2; 3];
        ToffoliGate 0 1 2; XGate 1; Barrier [0; 1; 2; 3];
        ToffoliGate 0 1 2; RYGate (Np.neg (Fin (acos 0.79))) 2;
        ToffoliGate 0 1 2; RYGate (Fin (acos 0.79)) 2; Barrier [0; 1; 2; 3];
        CnotGate 1 3; HGate 0; Barrier [0; 1; 2; 3];
        Measure 0 0; Measure 1 1; Measure 2 2; Measure 3 3])
    (bitstring 4 10) =
  Some (interfered_amplitude (2 * acos (-0.549)) (acos 0.79) 10 ^ 2)%R.
Proof.
  refine (proj2 (classifier_outcome_probabilities
                   [Fin (2 * acos (-0.549)); Fin (acos 0.79)] []
                   (2 * acos (-0.549)) (acos 0.79) _ _
                   eq_refl eq_refl eq_refl eq_refl) 10%nat _).
  lia.
Defined.

Lemma unit_test_vector (theta : R) :
  (test_vector theta false ^ 2 + test_vector theta true ^ 2 = 1)%R.
Proof.
  unfold test_vector. pose proof (sin2_cos2 (theta / 2)) as H. unfold Rsqr in H. lra.
Qed.

Lemma unit_training_vector (a : R) (m : bool) :
  (training_vector a m false ^ 2 + training_vector a m true ^ 2 = 1)%R.
Proof.
  unfold training_vector. pose proof (sin2_cos2 a) as H. unfold Rsqr in H.
  destruct m; lra.
Qed.

Lemma sqrt2_sq : (sqrt 2 * sqrt 2 = 2)%R.
Proof. apply sqrt_sqrt. lra. Qed.

Lemma kernel_of_distance (theta a : R) (m : bool) :
  ((((test_vector theta false + training_vector a m false) / (2 * sqrt 2)) ^ 2
    + ((test_vector theta true + training_vector a m true) / (2 * sqrt 2)) ^ 2)
   = kernel (sqrt (sqdist theta a m)) / 2)%R.
Proof.
  unfold kernel. rewrite pow2_sqrt
    by (unfold sqdist; apply Rplus_le_le_0_compat; apply pow2_ge_0).
  unfold sqdist.
  pose proof (unit_test_vector theta) as Ht.
  pose proof (unit_training_vector a m) as Hm.
  pose proof sqrt2_sq as Hs. pose proof sqrt2_neq_0 as Hn.
  revert Ht Hm.
  generalize (test_vector theta false) (test_vector theta true)
    (training_vector a m false) (training_vector a m true).
  intros x0 y0 x1 y1 Ht Hm.
  replace (((x0 + x1) / (2 * sqrt 2)) ^ 2 + ((y0 + y1) / (2 * sqrt 2)) ^ 2)%R
    with (((x0 + x1) ^ 2 + (y0 + y1) ^ 2) / (4 * (sqrt 2 * sqrt 2)))%R
    by (field; exact Hn).
  rewrite Hs. nra.
Qed.

(** X4: the probability of reading ancilla 0 together with class [m] is
    half the plotted kernel [1 - x**2/4] at the distance between the test
    vector and training vector [m]. *)
Theorem ancilla_0_probability_is_kernel
    (angles angles' : list np_float) (theta a : R) (circuit circuit' : QuantumCircuit) :
  prepare_state q c angles = Ret circuit ->
  angles !! 0%nat = Some (Fin theta) ->
  angles !! 1%nat = Some (Fin a) ->
  interfere_data_and_test_instances circuit q c angles' = Ret circuit' ->
  exists p0x p0y p1x p1y,
    outcome_prob circuit' "0000" = Some p0x /\
    outcome_prob circuit' "0100" = Some p0y /\
    outcome_prob circuit' "1010" = Some p1x /\
    outcome_prob circuit' "1110" = Some p1y /\
    (p0x + p0y = kernel (sqrt (sqdist theta a false)) / 2)%R /\
    (p1x + p1y = kernel (sqrt (sqdist theta a true)) / 2)%R.
Proof.
  intros Hprep H0 H1 Hint.
  rewrite (interfered_circuit _ _ _ _ _ _ Hprep H0 H1 Hint).
  do 4 eexists.
  split; [apply (classifier_outcome_prob theta a 0); lia|].
  split; [apply (classifier_outcome_prob theta a 4); lia|].
  split; [apply (classifier_outcome_prob theta a 10); lia|].
  split; [apply (classifier_outcome_prob theta a 14); lia|].
  rewrite <- !kernel_of_distance.
  unfold interfered_amplitude. eval_bits. cbn [Bool.eqb].
  split; f_equal; f_equal; f_equal; lra.
Qed.

Lemma ancilla_0_probability_is_kernel_witness :
  exists p0x p0y p1x p1y,
    outcome_prob
      (mkCircuit 4 4
         [HGate 0; HGate 1; Barrier [0; 1; 2; 3];
          Cu3Gate (Fin (2 * acos (-0.549))) (Fin 0) (Fin 0) 0 2; XGate 0;
          Barrier [0; 1; 2; 3];
          ToffoliGate 0 1 2; XGate 1; Barrier [0; 1; 2; 3];
          ToffoliGate 0 1 2; RYGate (Np.neg (Fin (acos 0.79))) 2;
          ToffoliGate 0 1 2; RYGate (Fin (acos 0.79)) 2; Barrier [0; 1; 2; 3];
          CnotGate 1 3; HGate 0; Barrier [0; 1; 2; 3];
          Measure 0 0; Measure 1 1; Measure 2 2; Measure 3 3]) "0000" = Some p0x /\
    outcome_prob
      (mkCircuit 4 4
         [HGate 0; HGate 1; Barrier [0; 1; 2; 3];
          Cu3Gate (Fin (2 * acos (-0.549))) (Fin 0) (Fin 0) 0 2; XGate 0;
          Barrier [0; 1; 2; 3];
          ToffoliGate 0 1 2; XGate 1; Barrier [0; 1; 2; 3];
          ToffoliGate 0 1 2; RYGate (Np.neg (Fin (acos 0.79))) 2;
          ToffoliGate 0 1 2; RYGate (Fin (acos 0.79)) 2; Barrier [0; 1; 2; 3];
          CnotGate 1 3; HGate 0; Barrier [0; 1; 2; 3];
          Measure 0 0; Measure 1 1; Measure 2 2; Measure 3 3]) "0100" = Some p0y /\
    outcome_prob
      (mkCircuit 4 4
         [HGate 0; HGate 1; Barrier [0; 1; 2; 3];
          Cu3Gate (Fin (2 * acos (-0.549))) (Fin 0) (Fin 0) 0 2; XGate 0;
          Barrier [0; 1; 2; 3];
          ToffoliGate 0 1 2; XGate 1; Barrier [0; 1; 2; 3];
          ToffoliGate 0 1 2; RYGate (Np.neg (Fin (acos 0.79))) 2;
          ToffoliGate 0 1 2; RYGate (Fin (acos 0.79)) 2; Barrier [0; 1; 2; 3];
          CnotGate 1 3; HGate 0; Barrier [0; 1; 2; 3];
          Measure 0 0; Measure 1 1; Measure 2 2; Measure 3 3]) "1010" = Some p1x /\
    outcome_prob
      (mkCircuit 4 4
         [HGate 0; HGate 1; Barrier [0; 1; 2; 3];
          Cu3Gate (Fin (2 * acos (-0.549))) (Fin 0) (Fin 0) 0 2; XGate 0;
          Barrier [0; 1; 2; 3];
          ToffoliGate 0 1 2; XGate 1; Barrier [0; 1; 2; 3];
          ToffoliGate 0 1 2; RYGate (Np.neg (Fin (acos 0.79))) 2;
          ToffoliGate 0 1 2; RYGate (Fin (acos 0.79)) 2; Barrier [0; 1; 2; 3];
          CnotGate 1 3; HGate 0; Barrier [0; 1; 2; 3];
          Measure 0 0; Measure 1 1; Measure 2 2; Measure 3 3]) "1110" = Some p1y /\
    (p0x + p0y =
     kernel (sqrt (sqdist (2 * acos (-0.549)) (acos 0.79) false)) / 2)%R /\
    (p1x + p1y =
     kernel (sqrt (sqdist (2 * acos (-0.549)) (acos 0.79) true)) / 2)%R.
Proof.
  exact (ancilla_0_probability_is_kernel
           [Fin (2 * acos (-0.549)); Fin (acos 0.79)] []
           (2 * acos (-0.549)) (acos 0.79) _ _
           eq_refl eq_refl eq_refl eq_refl).
Defined.

Lemma sq_div_2_sqrt2 (x : R) : ((x / (2 * sqrt 2)) ^ 2 = x ^ 2 / 8)%R.
Proof.
  pose proof sqrt2_sq as Hs. pose proof sqrt2_neq_0 as Hn.
  replace ((x / (2 * sqrt 2)) ^ 2)%R with (x ^ 2 / (4 * (sqrt 2 * sqrt 2)))%R
    by (field; exact Hn).
  rewrite Hs. lra.
Qed.

Lemma interfered_amplitudes_normalized (theta a : R) :
  foldr Rplus 0%R ((fun y => interfered_amplitude theta a y ^ 2)%R <$> seq 0 16) = 1%R.
Proof.
  cbn [seq fmap list_fmap foldr]. unfold interfered_amplitude. eval_bits.
  cbn [Bool.eqb]. rewrite !sq_div_2_sqrt2.
  pose proof (unit_test_vector theta) as Ht.
  pose proof (unit_training_vector a false) as H0.
  pose proof (unit_training_vector a true) as H1.
  revert Ht H0 H1.
  generalize (test_vector theta false) (test_vector theta true)
    (training_vector a false false) (training_vector a false true)
    (training_vector a true false) (training_vector a true true).
  intros. nra.
Qed.

(** X5: the probabilities of the sixteen outcomes of the classifier
    circuit add up to 1. *)
Theorem classifier_probabilities_sum_to_1
    (angles angles' : list np_float) (theta a : R) (circuit circuit' : QuantumCircuit) :
  prepare_state q c angles = Ret circuit ->
  angles !! 0%nat = Some (Fin theta) ->
  angles !! 1%nat = Some (Fin a) ->
  interfere_data_and_test_instances circuit q c angles' = Ret circuit' ->
  exists p : nat -> R,
    (forall y, (y < 16)%nat -> outcome_prob circuit' (bitstring 4 y) = Some (p y)) /\
    foldr Rplus 0%R (p <$> seq 0 16) = 1%R.
Proof.
  intros Hprep H0 H1 Hint.
  rewrite (interfered_circuit _ _ _ _ _ _ Hprep H0 H1 Hint).
  exists (fun y => interfered_amplitude theta a y ^ 2)%R.
  split; [apply classifier_outcome_prob|apply interfered_amplitudes_normalized].
Qed.

Lemma classifier_probabilities_sum_to_1_witness :
  exists p : nat -> R,
    (forall y, (y < 16)%nat ->
       outcome_prob
         (mkCircuit 4 4
            [HGate 0; HGate 1; Barrier [0; 1; 2; 3];
             Cu3Gate (Fin (2 * acos (-0.549))) (Fin 0) (Fin 0) 0 2; XGate 0;
             Barrier [0; 1; 2; 3];
             ToffoliGate 0 1 2; XGate 1; Barrier [0; 1; 2; 3];
             ToffoliGate 0 1 2; RYGate (Np.neg (Fin (acos 0.79))) 2;
             ToffoliGate 0 1 2; RYGate (Fin (acos 0.79)) 2; Barrier [0; 1; 2; 3];
             CnotGate 1 3; HGate 0; Barrier [0; 1; 2; 3];
             Measure 0 0; Measure 1 1; Measure 2 2; Measure 3 3])
         (bitstring 4 y) = Some (p y)) /\
    foldr Rplus 0%R (p <$> seq 0 16) = 1%R.
Proof.
  exact (classifier_probabilities_sum_to_1
           [Fin (2 * acos (-0.549)); Fin (acos 0.79)] []
           (2 * acos (-0.549)) (acos 0.79) _ _
           eq_refl eq_refl eq_refl eq_refl).
Defined.

Lemma classifier_outcome_key (theta a : R) (y : nat) :
  (y < 16)%nat ->
  outcome_key
    (mkCircuit 4 4
       [HGate 0; HGate 1; Barrier [0; 1; 2; 3];
        Cu3Gate (Fin theta) (Fin 0) (Fin 0) 0 2; XGate 0; Barrier [0; 1; 2; 3];
        ToffoliGate 0 1 2; XGate 1; Barrier [0; 1; 2; 3];
        ToffoliGate 0 1 2; RYGate (Np.neg (Fin a)) 2;
        ToffoliGate 0 1 2; RYGate (Fin a) 2; Barrier [0; 1; 2; 3];
        CnotGate 1 3; HGate 0; Barrier [0; 1; 2; 3];
        Measure 0 0; Measure 1 1; Measure 2 2; Measure 3 3]) y =
  bitstring 4 y.
Proof.
  intros Hy. unfold outcome_key.
  change (measurements _) with [(0, 0); (1, 1); (2, 2); (3, 3)]%nat.
  cbn [clbits].
  do 16 (destruct y as [|y]; [vm_compute; reflexivity|]). lia.
Qed.

(** X6: in the state strings of the classifier circuit the last character
    is the ancilla (qubit 0), which [post_select] tests, and the first
    character is the class qubit (qubit 3), which [retrieve_class] tests. *)
Theorem classifier_state_string_order
    (angles angles' : list np_float) (theta a : R) (circuit circuit' : QuantumCircuit)
    (y : nat) :
  prepare_state q c angles = Ret circuit ->
  angles !! 0%nat = Some (Fin theta) ->
  angles !! 1%nat = Some (Fin a) ->
  interfere_data_and_test_instances circuit q c angles' = Ret circuit' ->
  (y < 16)%nat ->
  str_last (outcome_key circuit' y) =
    Ret (if Nat.testbit y 0 then "1" else "0")%char /\
  str_first (outcome_key circuit' y) =
    Ret (if Nat.testbit y 3 then "1" else "0")%char.
Proof.
  intros Hprep H0 H1 Hint Hy.
  rewrite (interfered_circuit _ _ _ _ _ _ Hprep H0 H1 Hint).
  rewrite classifier_outcome_key by exact Hy.
  do 16 (destruct y as [|y]; [split; vm_compute; reflexivity|]). lia.
Qed.

Lemma classifier_state_string_order_witness :
  str_last
    (outcome_key
       (mkCircuit 4 4
          [HGate 0; HGate 1; Barrier [0; 1; 2; 3];
           Cu3Gate (Fin (2 * acos (-0.549))) (Fin 0) (Fin 0) 0 2; XGate 0;
           Barrier [0; 1; 2; 3];
           ToffoliGate 0 1 2; XGate 1; Barrier [0; 1; 2; 3];
           ToffoliGate 0 1 2; RYGate (Np.neg (Fin (acos 0.79))) 2;
           ToffoliGate 0 1 2; RYGate (Fin (acos 0.79)) 2; Barrier [0; 1; 2; 3];
           CnotGate 1 3; HGate 0; Barrier [0; 1; 2; 3];
           Measure 0 0; Measure 1 1; Measure 2 2; Measure 3 3]) 10) =
    Ret "0"%char.
Proof.
  refine (proj1 (classifier_state_string_order
                   [Fin (2 * acos (-0.549)); Fin (acos 0.79)] []
                   (2 * acos (-0.549)) (acos 0.79) _ _ 10
                   eq_refl eq_refl eq_refl eq_refl _)).
  lia.
Defined.

Lemma foldr_Rplus_0 {A : Type} (f : A -> R) (l : list A) :
  (forall y, y ∈ l -> f y = 0%R) -> foldr Rplus 0%R (f <$> l) = 0%R.
Proof.
  induction l as [|y l IH]; intros Hf; [done|].
  rewrite fmap_cons. cbn [foldr].
  rewrite (Hf y) by apply list_elem_of_here.
  rewrite IH; [lra|]. intros z Hz. apply Hf. by apply list_elem_of_further.
Qed.

Lemma classifier_possible_outcome (theta a : R) (key : string) (p : R) :
  outcome_prob
    (mkCircuit 4 4
       [HGate 0; HGate 1; Barrier [0; 1; 2; 3];
        Cu3Gate (Fin theta) (Fin 0) (Fin 0) 0 2; XGate 0; Barrier [0; 1; 2; 3];
        ToffoliGate 0 1 2; XGate 1; Barrier [0; 1; 2; 3];
        ToffoliGate 0 1 2; RYGate (Np.neg (Fin a)) 2;
        ToffoliGate 0 1 2; RYGate (Fin a) 2; Barrier [0; 1; 2; 3];
        CnotGate 1 3; HGate 0; Barrier [0; 1; 2; 3];
        Measure 0 0; Measure 1 1; Measure 2 2; Measure 3 3]) key = Some p ->
  (0 < p)%R ->
  exists y, (y < 16)%nat /\ key = bitstring 4 y.
Proof.
  intros Hp Hpos.
  destruct (decide (key ∈ bitstring 4 <$> seq 0 16)) as [Hin|Hnin].
  - apply list_elem_of_fmap in Hin as (y & -> & Hy).
    exists y. split; [|done]. apply elem_of_seq in Hy. lia.
  - exfalso. unfold outcome_prob in Hp.
    destruct (run _ _) as [psi|]; [|done].
    cbn [mbind option_bind qubits] in Hp. apply (inj Some) in Hp. subst p.
    change (2 ^ 4)%nat with 16%nat in Hpos.
    rewrite foldr_Rplus_0 in Hpos; [lra|].
    intros y Hy. pose proof Hy as Hy'. apply elem_of_seq in Hy'.
    rewrite classifier_outcome_key by lia.
    destruct (String.eqb_spec (bitstring 4 y) key) as [<-|]; [|done].
    exfalso. apply Hnin. apply list_elem_of_fmap. by exists y.
Qed.

Lemma str_last_ends_with (state : string) (a : ascii) :
  str_last state = Ret a <-> ends_with a state = true.
Proof.
  unfold ends_with. rewrite str_last_get, bool_decide_eq_true.
  destruct (String.get _ state); split; congruence.
Qed.

Lemma bitstring_4_first (y : nat) :
  starts_with "0" (bitstring 4 y) = true \/ starts_with "1" (bitstring 4 y) = true.
Proof.
  cbn [bitstring]. destruct (Nat.testbit y 3); [right|left]; reflexivity.
Qed.

Lemma tally_nonempty (o : string) (outcomes : list string) :
  tally (o :: outcomes) <> ∅.
Proof.
  intros He. pose proof (tally_lookup (o :: outcomes) o) as Hl.
  rewrite He, lookup_empty, count_occ_cons_eq in Hl by done.
  destruct (decide _); [lia|done].
Qed.

(** X7: on the counts of any run of the classifier circuit [postselect]
    never raises [IndexError]: with no shots it divides by zero at
    [ancilla_post_selection], with shots but no state string ending in
    ['0'] at [prob_class0], and otherwise it returns class probabilities
    that add up to 1. *)
Theorem classifier_counts_postselect
    (angles angles' : list np_float) (theta a : R) (circuit circuit' : QuantumCircuit)
    (shots : nat) (counts : gmap string Z) :
  prepare_state q c angles = Ret circuit ->
  angles !! 0%nat = Some (Fin theta) ->
  angles !! 1%nat = Some (Fin a) ->
  interfere_data_and_test_instances circuit q c angles' = Ret circuit' ->
  qasm_counts circuit' shots counts ->
  (shots = 0%nat /\
   postselect counts = Raise (ZeroDivisionError "ancilla_post_selection")) \/
  ((0 < shots)%nat /\
   (forall state n, counts !! state = Some n -> str_last state <> Ret "0"%char) /\
   postselect counts = Raise (ZeroDivisionError "prob_class0")) \/
  (exists r state n,
      postselect counts = Ret r /\
      counts !! state = Some n /\ str_last state = Ret "0"%char /\
      (prob_class0 r + prob_class1 r = 1)%Qc).
Proof.
  intros Hprep H0 H1 Hint Hq.
  rewrite (interfered_circuit _ _ _ _ _ _ Hprep H0 H1 Hint) in Hq.
  destruct Hq as (outcomes & (_ & Hlen & Hposs) & ->).
  assert (Hkeys : forall key n, tally outcomes !! key = Some n ->
                    (exists y, (y < 16)%nat /\ key = bitstring 4 y) /\ (0 < n)%Z).
  { intros key n. rewrite tally_lookup.
    destruct (decide _) as [|Hcount]; [done|]. intros Hn. apply (inj Some) in Hn.
    split; [|lia].
    assert (Hin : In key outcomes) by (apply (count_occ_In string_dec); lia).
    destruct (proj1 (List.Forall_forall _ _) Hposs key Hin) as (p & Hp & Hpos).
    by apply (classifier_possible_outcome theta a key p). }
  assert (Hm : measured_counts (tally outcomes)).
  { intros key n Hin. destruct (Hkeys _ _ Hin) as [(y & _ & ->) Hn]. done. }
  destruct (measured_counts_positive _ Hm) as (Hpos & Hkpos & Hkey).
  destruct outcomes as [|o outcomes].
  { left. split; [done|]. apply postselect_no_samples. }
  right. pose proof (tally_nonempty o outcomes) as Hne.
  revert Hkeys Hm Hpos Hkpos Hkey Hne.
  generalize (tally (o :: outcomes)). intros counts Hkeys Hm Hpos Hkpos Hkey Hne.
  pose proof (weight_positive _ Hpos Hne) as Htot.
  destruct (decide (kept counts = ∅)) as [Hk|Hk].
  - left. split; [simpl in Hlen; lia|]. split.
    + intros state n Hin Hlast.
      assert (Hkept : kept counts !! state = Some n).
      { apply kept_lookup. split; [done|]. by apply str_last_ends_with. }
      by rewrite Hk, lookup_empty in Hkept.
    + apply postselect_nothing_kept; [done|lia|done].
  - right. pose proof (weight_positive _ Hkpos Hk) as Hkw.
    apply map_choose in Hk as (state & n & Hin).
    apply kept_lookup in Hin as [Hin Hend].
    eexists _, state, n. split; [|split; [exact Hin|split]].
    + apply postselect_returns_nonneg.
      { intros state' n' Hin'. pose proof (Hpos state' n' Hin') as Hn'.
        simpl in Hn'. lia. }
      split; [done|]. split; [lia|]. split; [lia|reflexivity].
    + by apply str_last_ends_with.
    + cbn [prob_class0 prob_class1]. unfold class_probability.
      apply Qc_fractions_sum; [lia|]. apply weight_partition.
      intros state' n' Hin'. apply kept_lookup in Hin' as [Hin' _].
      destruct (Hkeys _ _ Hin') as [(y & _ & ->) _]. apply bitstring_4_first.
Qed.

Lemma classifier_counts_postselect_witness :
  (1%nat = 0%nat /\
   postselect (tally ["0100"]) = Raise (ZeroDivisionError "ancilla_post_selection")) \/
  ((0 < 1)%nat /\
   (forall state n, tally ["0100"] !! state = Some n -> str_last state <> Ret "0"%char) /\
   postselect (tally ["0100"]) = Raise (ZeroDivisionError "prob_class0")) \/
  (exists r state n,
      postselect (tally ["0100"]) = Ret r /\
      tally ["0100"] !! state = Some n /\ str_last state = Ret "0"%char /\
      (prob_class0 r + prob_class1 r = 1)%Qc).
Proof.
  refine (classifier_counts_postselect [Fin 0; Fin 0] [] 0 0 _ _ 1 (tally ["0100"])
            eq_refl eq_refl eq_refl eq_refl _).
  exists ["0100"]. split; [|reflexivity].
  split; [reflexivity|]. split; [reflexivity|].
  constructor; [|constructor].
  eexists. split; [apply (classifier_outcome_prob 0 0 4); lia|].
  unfold interfered_amplitude. eval_bits.
  cbn [Bool.eqb test_vector training_vector].
  rewrite sq_div_2_sqrt2.
  replace (0 / 2)%R with 0%R by lra. rewrite sin_0. lra.
Defined.

(** X8: [prepare_state] raises nothing but [IndexError], and raises it
    exactly when the quantum register has fewer than four qubits or fewer
    than two angles are given; the classical register and the values of
    the angles are not looked at. *)
Theorem prepare_state_errors (n m : nat) (angles : list np_float) :
  (prepare_state n m angles = Raise IndexError <->
   (n < 4)%nat \/ (length angles < 2)%nat) /\
  (forall e, prepare_state n m angles = Raise e -> e = IndexError) /\
  (forall m' circuit,
      prepare_state n m angles = Ret circuit ->
      prepare_state n m' angles = Ret (mkCircuit n m' (data circuit))).
Proof.
  split; [|split].
  - split.
    + intros Hraise.
      destruct (decide (n < 4)%nat) as [|Hn]; [by left|]. right.
      destruct angles as [|a0 [|a1 angles]]; cbn [length]; [lia|lia|].
      exfalso.
      assert (Hret : prepare_state n m (a0 :: a1 :: angles) =
                     Ret (mkCircuit n m
                            [HGate 0; HGate 1; Barrier (seq 0 n);
                             Cu3Gate a0 (Fin 0) (Fin 0) 0 2; XGate 0; Barrier (seq 0 n);
                             ToffoliGate 0 1 2; XGate 1; Barrier (seq 0 n);
                             ToffoliGate 0 1 2; RYGate (Np.neg a1) 2;
                             ToffoliGate 0 1 2; RYGate a1 2; Barrier (seq 0 n);
                             CnotGate 1 3])).
      { apply prepare_state_returns. exists a0, a1. split; [lia|done]. }
      congruence.
    + intros Hcase.
      destruct (prepare_state n m angles) as [circuit|e] eqn:Hprep.
      * apply prepare_state_returns in Hprep as (a0 & a1 & Hn & H0 & H1 & _).
        apply lookup_lt_Some in H1. lia.
      * f_equal. revert Hprep. unfold prepare_state, getitem.
        destruct n as [|[|[|[|n]]]]; cbn [qubit Nat.ltb Nat.leb mbind py_bind];
          try congruence.
        destruct (angles !! 0%nat); cbn [mbind py_bind]; [|congruence].
        destruct (angles !! 1%nat); cbn [mbind py_bind]; congruence.
  - intros e. unfold prepare_state, getitem.
    destruct n as [|[|[|[|n]]]]; cbn [qubit Nat.ltb Nat.leb mbind py_bind];
      try congruence.
    destruct (angles !! 0%nat); cbn [mbind py_bind]; [|congruence].
    destruct (angles !! 1%nat); cbn [mbind py_bind]; congruence.
  - intros m' circuit Hprep.
    apply prepare_state_returns in Hprep as (a0 & a1 & Hn & H0 & H1 & ->).
    apply prepare_state_returns. by exists a0, a1.
Qed.

Lemma prepare_state_errors_witness :
  prepare_state 4 2 [Fin 0; NaN] =
  Ret (mkCircuit 4 2 (data (mkCircuit 4 4
         [HGate 0; HGate 1; Barrier [0; 1; 2; 3];
          Cu3Gate (Fin 0) (Fin 0) (Fin 0) 0 2; XGate 0; Barrier [0; 1; 2; 3];
          ToffoliGate 0 1 2; XGate 1; Barrier [0; 1; 2; 3];
          ToffoliGate 0 1 2; RYGate (Np.neg NaN) 2;
          ToffoliGate 0 1 2; RYGate NaN 2; Barrier [0; 1; 2; 3];
          CnotGate 1 3]))).
Proof.
  exact (proj2 (proj2 (prepare_state_errors 4 4 [Fin 0; NaN])) 2%nat _ eq_refl).
Defined.

(** X9: when [postselect] raises, it is [IndexError] (the empty string is a
    key) or the error of the first division that fails:
    [ZeroDivisionError] at [ancilla_post_selection] when the counts add up
    to zero and at [prob_class0] when the kept counts do, [OverflowError]
    at any of the three divisions when the quotient is beyond the binary64
    range.  The division for [prob_class1] never divides by zero, no
    [KeyError] is raised, and on counts that are not negative no
    [OverflowError] either. *)
Theorem postselect_errors (result_counts : gmap string Z) (e : py_error) :
  postselect result_counts = Raise e ->
  ((e = IndexError /\ exists n, result_counts !! EmptyString = Some n) \/
   (result_counts !! EmptyString = None /\
    exists selected class0 class1,
      post_select result_counts = Ret selected /\
      retrieve_class (dict selected) 0 = Ret class0 /\
      retrieve_class (dict selected) 1 = Ret class1 /\
      ((e = ZeroDivisionError "ancilla_post_selection" /\
        sum (values result_counts) = 0%Z) \/
       (e = OverflowError "ancilla_post_selection" /\
        sum (values result_counts) <> 0%Z /\
        overflows (sum (values (dict selected))) (sum (values result_counts)) = true) \/
       (e = ZeroDivisionError "prob_class0" /\
        sum (values result_counts) <> 0%Z /\
        sum (values (dict selected)) = 0%Z) \/
       (e = OverflowError "prob_class0" /\
        sum (values (dict selected)) <> 0%Z /\
        overflows (sum class0) (sum (values (dict selected))) = true) \/
       (e = OverflowError "prob_class1" /\
        sum (values (dict selected)) <> 0%Z /\
        overflows (sum class1) (sum (values (dict selected))) = true)))) /\
  (map_Forall (fun _ n => (0 <= n)%Z) result_counts ->
   forall target, e <> OverflowError target).
Proof.
  intros Hraise.
  destruct (result_counts !! EmptyString) as [n|] eqn:Hkey.
  { rewrite (postselect_empty_key _ n Hkey) in Hraise. injection Hraise as <-.
    split; [left; eauto|]. intros _ target. discriminate. }
  pose proof (post_select_total result_counts Hkey) as Hsel.
  pose proof (dict_filter_items (fun so => ends_with "0" so.1 = true) result_counts)
    as Hdict.
  fold (kept result_counts) in Hdict.
  pose proof (retrieve_class_total (kept result_counts) 0 "0"
                (kept_nonempty_keys result_counts) ltac:(done)) as Hc0.
  pose proof (retrieve_class_total (kept result_counts) 1 "1"
                (kept_nonempty_keys result_counts) ltac:(done)) as Hc1.
  rewrite postselect_eq in Hraise by done. unfold truediv in Hraise.
  split.
  - right. split; [done|]. eexists _, _, _.
    split; [exact Hsel|]. rewrite Hdict.
    split; [exact Hc0|]. split; [exact Hc1|].
    rewrite !sum_values, !sum_class.
    destruct (decide (weight everything result_counts = 0%Z)) as [Htot|Htot];
      cbn [mbind py_bind] in Hraise; [injection Hraise as <-; by left|].
    destruct (overflows (weight everything (kept result_counts)) _) eqn:Hsel';
      cbn [mbind py_bind] in Hraise; [injection Hraise as <-; right; by left|].
    destruct (decide (weight everything (kept result_counts) = 0%Z)) as [Hkept|Hkept];
      cbn [mbind py_bind] in Hraise;
      [injection Hraise as <-; right; right; by left|].
    destruct (overflows (weight (starts_with "0") (kept result_counts)) _) eqn:H0;
      cbn [mbind py_bind] in Hraise;
      [injection Hraise as <-; right; right; right; by left|].
    destruct (overflows (weight (starts_with "1") (kept result_counts)) _) eqn:H1;
      cbn [mbind py_bind] in Hraise; [|done].
    injection Hraise as <-. right; right; right; by right.
  - intros Hpos target ->. destruct (kept_bounds _ Hpos) as [Hkpos Hk].
    revert Hraise.
    destruct (decide (weight everything result_counts = 0%Z)) as [Htot|Htot];
      cbn [mbind py_bind]; [done|].
    rewrite (no_overflow_nonneg (weight everything (kept result_counts))
               (weight everything result_counts)) by done.
    cbn [mbind py_bind].
    destruct (decide (weight everything (kept result_counts) = 0%Z)) as [Hkept|Hkept];
      cbn [mbind py_bind]; [done|].
    rewrite (no_overflow_nonneg (weight (starts_with "0") (kept result_counts)))
      by first [done|by apply weight_bounds].
    cbn [mbind py_bind].
    rewrite (no_overflow_nonneg (weight (starts_with "1") (kept result_counts)))
      by first [done|by apply weight_bounds].
    done.
Qed.

Lemma postselect_errors_witness :
  (OverflowError "ancilla_post_selection" = IndexError /\
   exists n,
     ({[ "00" := (10 ^ 309)%Z; "01" := (1 - 10 ^ 309)%Z ]} : gmap string Z)
       !! EmptyString = Some n) \/
  (({[ "00" := (10 ^ 309)%Z; "01" := (1 - 10 ^ 309)%Z ]} : gmap string Z)
     !! EmptyString = None /\
   exists selected class0 class1,
     post_select {[ "00" := (10 ^ 309)%Z; "01" := (1 - 10 ^ 309)%Z ]} = Ret selected /\
     retrieve_class (dict selected) 0 = Ret class0 /\
     retrieve_class (dict selected) 1 = Ret class1 /\
     ((OverflowError "ancilla_post_selection" =
         ZeroDivisionError "ancilla_post_selection" /\
       sum (values {[ "00" := (10 ^ 309)%Z; "01" := (1 - 10 ^ 309)%Z ]}) = 0%Z) \/
      (OverflowError "ancilla_post_selection" =
         OverflowError "ancilla_post_selection" /\
       sum (values {[ "00" := (10 ^ 309)%Z; "01" := (1 - 10 ^ 309)%Z ]}) <> 0%Z /\
       overflows (sum (values (dict selected)))
         (sum (values {[ "00" := (10 ^ 309)%Z; "01" := (1 - 10 ^ 309)%Z ]})) = true) \/
      (OverflowError "ancilla_post_selection" = ZeroDivisionError "prob_class0" /\
       sum (values {[ "00" := (10 ^ 309)%Z; "01" := (1 - 10 ^ 309)%Z ]}) <> 0%Z /\
       sum (values (dict selected)) = 0%Z) \/
      (OverflowError "ancilla_post_selection" = OverflowError "prob_class0" /\
       sum (values (dict selected)) <> 0%Z /\
       overflows (sum class0) (sum (values (dict selected))) = true) \/
      (OverflowError "ancilla_post_selection" = OverflowError "prob_class1" /\
       sum (values (dict selected)) <> 0%Z /\
       overflows (sum class1) (sum (values (dict selected))) = true))).
Proof.
  refine (proj1 (postselect_errors
                   {[ "00" := (10 ^ 309)%Z; "01" := (1 - 10 ^ 309)%Z ]}
                   (OverflowError "ancilla_post_selection") _)).
  vm_compute. reflexivity.
Defined.

(** X10: for a normalized vector [(a0, a1)] the angle [get_angle(a0)] lies
    in [[0, 2 pi]], and the rotation by it, as [cu3] or [ry], takes [|0>]
    to [a0 |0> + |a1| |1>]: the first amplitude is recovered, the second
    up to its sign. *)
Theorem get_angle_round_trip (a0 a1 : R) :
  (a0 ^ 2 + a1 ^ 2 = 1)%R ->
  exists theta,
    get_angle (Fin a0) = Ret (Fin theta) /\
    (0 <= theta <= 2 * PI)%R /\
    U3m theta 0 0 false false = RtoC a0 /\
    U3m theta 0 0 true false = RtoC (Rabs a1) /\
    RYm theta false false = RtoC a0 /\
    RYm theta true false = RtoC (Rabs a1).
Proof.
  intros Hnorm.
  assert (Ha : (-1 <= a0 <= 1)%R) by nra.
  assert (Hsqrt : sqrt (1 - a0²) = Rabs a1).
  { rewrite <- sqrt_Rsqr_abs. f_equal. unfold Rsqr. lra. }
  destruct (RYm_get_angle a0 Ha) as [Hc Hs]. rewrite Hsqrt in Hs.
  exists (2 * acos a0)%R.
  split; [by apply get_angle_normalized|].
  split; [pose proof (acos_bound a0); lra|].
  split; [exact Hc|]. split; [|split; [exact Hc|exact Hs]].
  unfold U3m. rewrite Cexp_i_0, Cmul_RtoC.
  unfold RYm in Hs. rewrite <- Hs. f_equal. lra.
Qed.

Lemma get_angle_round_trip_witness :
  exists theta,
    get_angle (Fin 0) = Ret (Fin theta) /\
    (0 <= theta <= 2 * PI)%R /\
    U3m theta 0 0 false false = RtoC 0 /\
    U3m theta 0 0 true false = RtoC (Rabs (-1)) /\
    RYm theta false false = RtoC 0 /\
    RYm theta true false = RtoC (Rabs (-1)).
Proof.
  apply (get_angle_round_trip 0 (-1)). lra.
Defined.

Lemma kernel_decreasing (theta a : R) :
  (kernel (sqrt (sqdist theta a true)) < kernel (sqrt (sqdist theta a false)) <->
   sqdist theta a false < sqdist theta a true)%R.
Proof.
  unfold kernel.
  rewrite !pow2_sqrt
    by (unfold sqdist; apply Rplus_le_le_0_compat; apply pow2_ge_0).
  lra.
Qed.

(** X11: among the outcomes with ancilla 0, class 0 is more likely than
    class 1 exactly when the test vector is closer to the first training
    vector than to the second. *)
Theorem classifier_decision_rule
    (angles angles' : list np_float) (theta a : R) (circuit circuit' : QuantumCircuit) :
  prepare_state q c angles = Ret circuit ->
  angles !! 0%nat = Some (Fin theta) ->
  angles !! 1%nat = Some (Fin a) ->
  interfere_data_and_test_instances circuit q c angles' = Ret circuit' ->
  exists p0x p0y p1x p1y,
    outcome_prob circuit' "0000" = Some p0x /\
    outcome_prob circuit' "0100" = Some p0y /\
    outcome_prob circuit' "1010" = Some p1x /\
    outcome_prob circuit' "1110" = Some p1y /\
    ((p1x + p1y < p0x + p0y)%R <->
     (sqdist theta a false < sqdist theta a true)%R).
Proof.
  intros Hprep H0 H1 Hint.
  rewrite (interfered_circuit _ _ _ _ _ _ Hprep H0 H1 Hint).
  do 4 eexists.
  split; [apply (classifier_outcome_prob theta a 0); lia|].
  split; [apply (classifier_outcome_prob theta a 4); lia|].
  split; [apply (classifier_outcome_prob theta a 10); lia|].
  split; [apply (classifier_outcome_prob theta a 14); lia|].
  rewrite <- kernel_decreasing.
  unfold interfered_amplitude. eval_bits. cbn [Bool.eqb].
  replace (test_vector theta false + 1 * training_vector a false false)%R
    with (test_vector theta false + training_vector a false false)%R by lra.
  replace (test_vector theta true + 1 * training_vector a false true)%R
    with (test_vector theta true + training_vector a false true)%R by lra.
  replace (test_vector theta false + 1 * training_vector a true false)%R
    with (test_vector theta false + training_vector a true false)%R by lra.
  replace (test_vector theta true + 1 * training_vector a true true)%R
    with (test_vector theta true + training_vector a true true)%R by lra.
  rewrite !kernel_of_distance. lra.
Qed.

Lemma classifier_decision_rule_witness :
  exists p0x p0y p1x p1y,
    outcome_prob
      (mkCircuit 4 4
         [HGate 0; HGate 1; Barrier [0; 1; 2; 3];
          Cu3Gate (Fin 0) (Fin 0) (Fin 0) 0 2; XGate 0; Barrier [0; 1; 2; 3];
          ToffoliGate 0 1 2; XGate 1; Barrier [0; 1; 2; 3];
          ToffoliGate 0 1 2; RYGate (Np.neg (Fin 0)) 2;
          ToffoliGate 0 1 2; RYGate (Fin 0) 2; Barrier [0; 1; 2; 3];
          CnotGate 1 3; HGate 0; Barrier [0; 1; 2; 3];
          Measure 0 0; Measure 1 1; Measure 2 2; Measure 3 3]) "0000" = Some p0x /\
    outcome_prob
      (mkCircuit 4 4
         [HGate 0; HGate 1; Barrier [0; 1; 2; 3];
          Cu3Gate (Fin 0) (Fin 0) (Fin 0) 0 2; XGate 0; Barrier [0; 1; 2; 3];
          ToffoliGate 0 1 2; XGate 1; Barrier [0; 1; 2; 3];
          ToffoliGate 0 1 2; RYGate (Np.neg (Fin 0)) 2;
          ToffoliGate 0 1 2; RYGate (Fin 0) 2; Barrier [0; 1; 2; 3];
          CnotGate 1 3; HGate 0; Barrier [0; 1; 2; 3];
          Measure 0 0; Measure 1 1; Measure 2 2; Measure 3 3]) "0100" = Some p0y /\
    outcome_prob
      (mkCircuit 4 4
         [HGate 0; HGate 1; Barrier [0; 1; 2; 3];
          Cu3Gate (Fin 0) (Fin 0) (Fin 0) 0 2; XGate 0; Barrier [0; 1; 2; 3];
          ToffoliGate 0 1 2; XGate 1; Barrier [0; 1; 2; 3];
          ToffoliGate 0 1 2; RYGate (Np.neg (Fin 0)) 2;
          ToffoliGate 0 1 2; RYGate (Fin 0) 2; Barrier [0; 1; 2; 3];
          CnotGate 1 3; HGate 0; Barrier [0; 1; 2; 3];
          Measure 0 0; Measure 1 1; Measure 2 2; Measure 3 3]) "1010" = Some p1x /\
    outcome_prob
      (mkCircuit 4 4
         [HGate 0; HGate 1; Barrier [0; 1; 2; 3];
          Cu3Gate (Fin 0) (Fin 0) (Fin 0) 0 2; XGate 0; Barrier [0; 1; 2; 3];
          ToffoliGate 0 1 2; XGate 1; Barrier [0; 1; 2; 3];
          ToffoliGate 0 1 2; RYGate (Np.neg (Fin 0)) 2;
          ToffoliGate 0 1 2; RYGate (Fin 0) 2; Barrier [0; 1; 2; 3];
          CnotGate 1 3; HGate 0; Barrier [0; 1; 2; 3];
          Measure 0 0; Measure 1 1; Measure 2 2; Measure 3 3]) "1110" = Some p1y /\
    ((p1x + p1y < p0x + p0y)%R <-> (sqdist 0 0 false < sqdist 0 0 true)%R).
Proof.
  exact (classifier_decision_rule [Fin 0; Fin 0] [] 0 0 _ _
           eq_refl eq_refl eq_refl eq_refl).
Defined.

Lemma test_vector_get_angle (a0 : R) (d : bool) :
  (-1 <= a0 <= 1)%R ->
  test_vector (2 * acos a0) d = if d then sqrt (1 - a0²) else a0.
Proof.
  intros Ha. unfold test_vector.
  replace (2 * acos a0 / 2)%R with (acos a0) by lra.
  destruct d; [by apply sin_acos|by apply cos_acos].
Qed.

Lemma training_vector_get_angle (a0 : R) (d : bool) :
  (-1 <= a0 <= 1)%R ->
  training_vector (acos a0) true d = if d then sqrt (1 - a0²) else a0.
Proof.
  intros Ha. unfold training_vector.
  destruct d; [by apply sin_acos|by apply cos_acos].
Qed.

(** X12: for the first test instance of the notebook, [circuit_0] gives
    the outcomes with ancilla 0 and class 0 a larger probability than
    those with ancilla 0 and class 1. *)
Theorem first_test_instance_class_0 :
  exists circuit p0x p0y p1x p1y,
    circuit_0 = Ret circuit /\
    outcome_prob circuit "0000" = Some p0x /\
    outcome_prob circuit "0100" = Some p0y /\
    outcome_prob circuit "1010" = Some p1x /\
    outcome_prob circuit "1110" = Some p1y /\
    (p1x + p1y < p0x + p0y)%R.
Proof.
  assert (Hcirc : circuit_0 =
                  interfere_data_and_test_instances
                    (mkCircuit 4 4
                       [HGate 0; HGate 1; Barrier [0; 1; 2; 3];
                        Cu3Gate (Fin (2 * acos (-0.549))) (Fin 0) (Fin 0) 0 2; XGate 0;
                        Barrier [0; 1; 2; 3];
                        ToffoliGate 0 1 2; XGate 1; Barrier [0; 1; 2; 3];
                        ToffoliGate 0 1 2; RYGate (Np.neg (Fin (acos 0.79))) 2;
                        ToffoliGate 0 1 2; RYGate (Fin (acos 0.79)) 2;
                        Barrier [0; 1; 2; 3];
                        CnotGate 1 3]) q c
                    [Fin (2 * acos (-0.549)); Fin (acos 0.79)]).
  { unfold circuit_0, state_preparation_0. rewrite angles_0_value.
    cbn [mbind py_bind]. by rewrite prepare_state_data. }
  eexists.
  exists (interfered_amplitude (2 * acos (-0.549)) (acos 0.79) 0 ^ 2)%R,
         (interfered_amplitude (2 * acos (-0.549)) (acos 0.79) 4 ^ 2)%R,
         (interfered_amplitude (2 * acos (-0.549)) (acos 0.79) 10 ^ 2)%R,
         (interfered_amplitude (2 * acos (-0.549)) (acos 0.79) 14 ^ 2)%R.
  split; [rewrite Hcirc; reflexivity|].
  split; [apply (classifier_outcome_prob _ _ 0); lia|].
  split; [apply (classifier_outcome_prob _ _ 4); lia|].
  split; [apply (classifier_outcome_prob _ _ 10); lia|].
  split; [apply (classifier_outcome_prob _ _ 14); lia|].
  unfold interfered_amplitude. eval_bits. cbn [Bool.eqb].
  rewrite !sq_div_2_sqrt2.
  rewrite !test_vector_get_angle, !training_vector_get_angle by lra.
  cbn [training_vector].
  assert (Hs : (0 <= sqrt (1 - (-0.549)²))%R) by apply sqrt_pos.
  assert (Hs2 : (sqrt (1 - (-0.549)²) * sqrt (1 - (-0.549)²) = 1 - (-0.549)²)%R).
  { apply sqrt_sqrt. unfold Rsqr. lra. }
  assert (Ht : (0 <= sqrt (1 - 0.79²))%R) by apply sqrt_pos.
  assert (Ht2 : (sqrt (1 - 0.79²) * sqrt (1 - 0.79²) = 1 - 0.79²)%R).
  { apply sqrt_sqrt. unfold Rsqr. lra. }
  unfold Rsqr in *.
  revert Hs Hs2 Ht Ht2.
  generalize (sqrt (1 - -0.549 * -0.549)) (sqrt (1 - 0.79 * 0.79)).
  intros s t Hs Hs2 Ht Ht2.
  assert (Ht1 : (t <= 1)%R) by nra.
  nra.
Qed.

(** ** Fractions *)

Lemma Qc_of_Z_neq_0 (b : Z) : b <> 0%Z -> Qc_of_Z b <> 0%Qc.
Proof.
  intros Hb Heq. rewrite <- Z2Qc_inj_0 in Heq. by apply Z2Qc_inj in Heq.
Qed.

Lemma Qc_of_Z_le (a b : Z) : (a <= b)%Z -> (Qc_of_Z a <= Qc_of_Z b)%Qc.
Proof. intros Hab. exact (proj1 (Z2Qc_inj_le a b) Hab). Qed.

Lemma Qc_fraction_bounds (a b : Z) :
  (0 <= a <= b)%Z -> b <> 0%Z -> (0 <= Qc_of_Z a / Qc_of_Z b <= 1)%Qc.
Proof.
  intros [Ha Hab] Hb.
  assert (Hb0 : (0 < Qc_of_Z b)%Qc).
  { rewrite <- Z2Qc_inj_0. apply (proj1 (Z2Qc_inj_lt 0 b)). lia. }
  assert (Hne : Qc_of_Z b <> 0%Qc) by by apply Qc_of_Z_neq_0.
  assert (Hmul : (Qc_of_Z a / Qc_of_Z b * Qc_of_Z b = Qc_of_Z a)%Qc) by by field.
  split.
  - apply (Qcmult_lt_0_le_reg_r _ _ (Qc_of_Z b)); [done|].
    rewrite Hmul, Qcmult_0_l. rewrite <- Z2Qc_inj_0. by apply Qc_of_Z_le.
  - apply (Qcmult_lt_0_le_reg_r _ _ (Qc_of_Z b)); [done|].
    rewrite Hmul, Qcmult_1_l. by apply Qc_of_Z_le.
Qed.


(** X13: on counts that are not negative the three results of
    [postselect] lie between 0 and 1. *)
Theorem postselect_results_are_probabilities
    (result_counts : gmap string Z) (r : postselect_result) :
  map_Forall (fun _ n => (0 <= n)%Z) result_counts ->
  postselect result_counts = Ret r ->
  (0 <= ancilla_post_selection r <= 1)%Qc /\
  (0 <= prob_class0 r <= 1)%Qc /\
  (0 <= prob_class1 r <= 1)%Qc.
Proof.
  intros Hpos Hret. apply postselect_returns_inv in Hret as (_ & Htot & Hkept & ->).
  assert (Hkpos : map_Forall (fun _ n => (0 <= n)%Z) (kept result_counts)).
  { intros state n Hin. apply kept_lookup in Hin as [Hin _]. by apply (Hpos state n). }
  cbn [ancilla_post_selection prob_class0 prob_class1]. unfold class_probability.
  split; [|split].
  - apply Qc_fraction_bounds; [|done].
    rewrite (weight_kept everything). by apply weight_bounds.
  - apply Qc_fraction_bounds; [|done]. by apply weight_bounds.
  - apply Qc_fraction_bounds; [|done]. by apply weight_bounds.
Qed.

Lemma postselect_results_are_probabilities_witness :
  (0 <= Qc_of_Z 4 / Qc_of_Z 8 <= 1)%Qc /\
  (0 <= Qc_of_Z 3 / Qc_of_Z 4 <= 1)%Qc /\
  (0 <= Qc_of_Z 1 / Qc_of_Z 4 <= 1)%Qc.
Proof.
  refine (postselect_results_are_probabilities
            {[ "0000" := 3%Z; "1000" := 1%Z; "0001" := 4%Z ]}
            (mkPostselect (Qc_of_Z 4 / Qc_of_Z 8)%Qc (Qc_of_Z 3 / Qc_of_Z 4)%Qc
                          (Qc_of_Z 1 / Qc_of_Z 4)%Qc) _ _).
  - intros state n Hin.
    apply lookup_insert_Some in Hin as [[_ <-]|[_ Hin]]; [lia|].
    apply lookup_insert_Some in Hin as [[_ <-]|[_ Hin]]; [lia|].
    apply lookup_singleton_Some in Hin as [_ <-]. lia.
  - vm_compute. reflexivity.
Defined.



(** X15: post-selecting what [post_select] kept changes nothing: the
    class probabilities are the same and every sample is kept. *)
Theorem postselect_idempotent
    (result_counts : gmap string Z) (selected : list (string * Z))
    (r : postselect_result) :
  postselect result_counts = Ret r ->
  post_select result_counts = Ret selected ->
  postselect (dict selected) =
  Ret (mkPostselect 1%Qc (prob_class0 r) (prob_class1 r)).
Proof.
  intros Hret Hsel.
  apply postselect_returns_iff in Hret as (Hkey & Htot & _ & Hkept & H0 & H1 & ->).
  rewrite post_select_total in Hsel by done. injection Hsel as <-.
  rewrite (dict_filter_items (fun so => ends_with "0" so.1 = true)).
  fold (kept result_counts).
  apply postselect_returns_iff.
  split; [apply kept_nonempty_keys|].
  rewrite kept_kept. split; [done|].
  split; [apply no_overflow_le; [done|lia]|].
  split; [done|]. split; [done|]. split; [done|].
  cbn [prob_class0 prob_class1]. unfold class_probability. rewrite kept_kept.
  f_equal. symmetry. unfold Qcdiv. apply Qcmult_inv_r. by apply Qc_of_Z_neq_0.
Qed.

Lemma postselect_idempotent_witness :
  postselect (dict [("1000", 1%Z); ("0000", 3%Z)]) =
  Ret (mkPostselect 1%Qc (Qc_of_Z 3 / Qc_of_Z 4)%Qc (Qc_of_Z 1 / Qc_of_Z 4)%Qc).
Proof.
  refine (postselect_idempotent
            {[ "0000" := 3%Z; "1000" := 1%Z; "0001" := 4%Z ]}
            [("1000", 1%Z); ("0000", 3%Z)]
            (mkPostselect (Qc_of_Z 4 / Qc_of_Z 8)%Qc (Qc_of_Z 3 / Qc_of_Z 4)%Qc
                          (Qc_of_Z 1 / Qc_of_Z 4)%Qc) _ _).
  - vm_compute. reflexivity.
  - vm_compute. reflexivity.
Defined.

(** X16: on the counts of a run of the measured GHZ circuit the assertion
    cell raises [KeyError('000')] when no shot gave [000], and
    [AssertionError] when [000] came up but not between 40 and 60 times;
    it never raises [KeyError('111')]. *)
Theorem ghz_assertion_failures (circuit : QuantumCircuit) (counts : gmap string Z) :
  circuit_ex3 = Ret circuit ->
  get_counts circuit counts ->
  (counts !! "000" = None -> assert_counts counts = Raise (KeyError "000")) /\
  (forall n0, counts !! "000" = Some n0 -> ~ (40 <= n0 <= 60)%Z ->
              assert_counts counts = Raise AssertionError) /\
  assert_counts counts <> Raise (KeyError "111").
Proof.
  rewrite circuit_ex3_data. intros Hcirc. injection Hcirc as <-.
  intros (outcomes & (_ & Hlen & Hposs) & ->).
  assert (Htwo : Forall (fun key => key = "000" \/ key = "111") outcomes).
  { eapply List.Forall_impl; [|exact Hposs]. intros key. apply possible_outcome_ex3. }
  pose proof (two_outcomes_count outcomes "000" "111" ltac:(done) Htwo) as Hsum.
  rewrite Hlen in Hsum.
  pose proof (tally_lookup outcomes "000") as H0.
  pose proof (tally_lookup outcomes "111") as H1.
  revert Hsum H0 H1.
  generalize (count_occ string_dec outcomes "000") (count_occ string_dec outcomes "111")
    (tally outcomes).
  intros c0 c1 counts Hsum H0 H1.
  assert (Hn0 : near_half (Z.of_nat c0) = true <-> (40 <= c0 <= 60)%nat)
    by (rewrite near_half_spec; lia).
  unfold assert_counts, dict_getitem. rewrite H0, H1.
  split; [|split].
  - destruct (decide (c0 = 0%nat)); done.
  - intros n0. destruct (decide (c0 = 0%nat)); [done|].
    intros Hn Hout. apply (inj Some) in Hn. subst n0.
    cbn [mbind py_bind].
    destruct (near_half (Z.of_nat c0)); [|done].
    exfalso. apply Hout. pose proof (proj1 Hn0 eq_refl). lia.
  - destruct (decide (c0 = 0%nat)); [discriminate|].
    cbn [mbind py_bind].
    destruct (near_half (Z.of_nat c0)); cbn [assert mbind py_bind]; [|discriminate].
    pose proof (proj1 Hn0 eq_refl).
    destruct (decide (c1 = 0%nat)); [lia|].
    cbn [mbind py_bind].
    destruct (near_half (Z.of_nat c1)); cbn [assert mbind py_bind]; [|discriminate].
    destruct (Z.of_nat c0 + Z.of_nat c1 =? 100)%Z; discriminate.
Qed.

Lemma ghz_assertion_failures_witness :
  assert_counts (tally (replicate 0 "000" ++ replicate 100 "111")) =
  Raise (KeyError "000").
Proof.
  refine (proj1
    (ghz_assertion_failures
       (mkCircuit 3 3
          [HGate 0; CnotGate 0 1; CnotGate 1 2;
           Measure 0 0; Measure 1 1; Measure 2 2])
       (tally (replicate 0 "000" ++ replicate 100 "111"))
       eq_refl _) _).
  - exists (replicate 0 "000" ++ replicate 100 "111").
    split; [apply (split_is_run 0 100)|reflexivity].
  - vm_compute. reflexivity.
Defined.

(** X17: for the second test instance of the notebook, [circuit_1] gives
    the outcomes with ancilla 0 and class 0 a larger probability than
    those with ancilla 0 and class 1. *)
Theorem second_test_instance_class_0 :
  exists circuit p0x p0y p1x p1y,
    circuit_1 = Ret circuit /\
    outcome_prob circuit "0000" = Some p0x /\
    outcome_prob circuit "0100" = Some p0y /\
    outcome_prob circuit "1010" = Some p1x /\
    outcome_prob circuit "1110" = Some p1y /\
    (p1x + p1y < p0x + p0y)%R.
Proof.
  assert (Hcirc : circuit_1 =
                  interfere_data_and_test_instances
                    (mkCircuit 4 4
                       [HGate 0; HGate 1; Barrier [0; 1; 2; 3];
                        Cu3Gate (Fin (2 * acos 0.053)) (Fin 0) (Fin 0) 0 2; XGate 0;
                        Barrier [0; 1; 2; 3];
                        ToffoliGate 0 1 2; XGate 1; Barrier [0; 1; 2; 3];
                        ToffoliGate 0 1 2; RYGate (Np.neg (Fin (acos 0.79))) 2;
                        ToffoliGate 0 1 2; RYGate (Fin (acos 0.79)) 2;
                        Barrier [0; 1; 2; 3];
                        CnotGate 1 3]) q c
                    [Fin (2 * acos 0.053); Fin (acos 0.79)]).
  { unfold circuit_1, state_preparation_1. rewrite angles_1_value.
    cbn [mbind py_bind]. by rewrite prepare_state_data. }
  eexists.
  exists (interfered_amplitude (2 * acos 0.053) (acos 0.79) 0 ^ 2)%R,
         (interfered_amplitude (2 * acos 0.053) (acos 0.79) 4 ^ 2)%R,
         (interfered_amplitude (2 * acos 0.053) (acos 0.79) 10 ^ 2)%R,
         (interfered_amplitude (2 * acos 0.053) (acos 0.79) 14 ^ 2)%R.
  split; [rewrite Hcirc; reflexivity|].
  split; [apply (classifier_outcome_prob _ _ 0); lia|].
  split; [apply (classifier_outcome_prob _ _ 4); lia|].
  split; [apply (classifier_outcome_prob _ _ 10); lia|].
  split; [apply (classifier_outcome_prob _ _ 14); lia|].
  unfold interfered_amplitude. eval_bits. cbn [Bool.eqb].
  rewrite !sq_div_2_sqrt2.
  rewrite !test_vector_get_angle, !training_vector_get_angle by lra.
  cbn [training_vector].
  assert (Hs : (0 <= sqrt (1 - 0.053²))%R) by apply sqrt_pos.
  assert (Hs2 : (sqrt (1 - 0.053²) * sqrt (1 - 0.053²) = 1 - 0.053²)%R).
  { apply sqrt_sqrt. unfold Rsqr. lra. }
  assert (Ht : (0 <= sqrt (1 - 0.79²))%R) by apply sqrt_pos.
  assert (Ht2 : (sqrt (1 - 0.79²) * sqrt (1 - 0.79²) = 1 - 0.79²)%R).
  { apply sqrt_sqrt. unfold Rsqr. lra. }
  unfold Rsqr in *.
  revert Hs Hs2 Ht Ht2.
  generalize (sqrt (1 - 0.053 * 0.053)) (sqrt (1 - 0.79 * 0.79)).
  intros s t Hs Hs2 Ht Ht2.
  assert (Ht1 : (t <= 0.62)%R) by nra.
  assert (Hs1 : (0.99 <= s)%R) by nra.
  nra.
Qed.

(** ** The printed coefficients and the data *)





